(** * OwlMind rules engine ([rules.py]): knowledge elements, rules, rule base

    A shallow embedding of [Element], [Rule] and [RuleBase] of [rules.py],
    followed by the properties of the matcher, of rule execution and of rule
    selection.

    Conventions of the embedding.
    - Python [str] is [string]; a character is an [ascii] (code points 0..255).
    - Python [int] is [Z].  Python [float] is idealised as an exact rational
      ([Q]): [len(a) / len(b)] is the exact quotient, and the constants
      [0.25], [0.75], [0.9], [1e-6] are the rationals they denote.  [bool] is
      the [int] it subclasses.
    - An exception is an explicit [Raise] result; state that the code mutates
      in place (the tested element, the two memories) is passed explicitly and
      returned next to the result.
    - The instance dictionary of an [Element] keeps insertion order, as
      Python's [__dict__] does.
    - The Python library functions the code calls on arbitrary user text
      ([re.search] on a user pattern, [int(str)], [float(str)]) are the
      fields of the class [PyLib]; the engine is parametric in them. *)

From Stdlib Require Import String Ascii List ZArith QArith Qabs Qround Bool Arith Lia.
From Stdlib Require DecimalString DecimalZ.
From Stdlib Require Import Lqa.
Import ListNotations.

Local Open Scope string_scope.
Local Open Scope list_scope.

(** ** Exceptions and results *)

Inductive exn : Type :=
| ZeroDivisionError
| ValueError
| IndexError
| AttributeError
| TypeError.

Inductive outcome (A : Type) : Type :=
| Ok (a : A)
| Raise (e : exn).

Arguments Ok {A} a.
Arguments Raise {A} e.

(** ** Python values *)

Inductive val : Type :=
| VStr (s : string)
| VInt (n : Z)
| VFloat (x : Q)
| VNone
| VObj.   (* any other object: a bound method, a list, ... *)

(** ** Python string operations *)

Module Str.

(** [s.startswith(p)] *)
Definition startswith (p s : string) : bool := String.prefix p s.

(** [s.endswith(p)] *)
Definition endswith (p s : string) : bool :=
  (String.length p <=? String.length s)%nat
  && String.eqb (String.substring (String.length s - String.length p)
                                  (String.length p) s) p.

(** [p in s] *)
Fixpoint contains (p s : string) : bool :=
  String.prefix p s
  || match s with
     | EmptyString => false
     | String _ s' => contains p s'
     end.

(** [s[i:]] *)
Fixpoint drop (i : nat) (s : string) : string :=
  match i, s with
  | O, _ => s
  | S i', String _ s' => drop i' s'
  | S _, EmptyString => EmptyString
  end.

(** [s[i:-j]] for non-negative [i], [j] *)
Definition slice (i j : nat) (s : string) : string :=
  String.substring i (String.length s - j - i) s.

(** [s.partition("*")]: the text before the first star and the text after
    it (the whole string and the empty string when there is no star). *)
Fixpoint partition_star (s : string) : string * string :=
  match s with
  | EmptyString => (EmptyString, EmptyString)
  | String c s' =>
      if Ascii.eqb c "*"%char then (EmptyString, s')
      else let '(a, b) := partition_star s' in (String c a, b)
  end.

(** [s.split("/@")]: the pieces between the non-overlapping occurrences of
    the separator, read left to right. *)
Fixpoint split_slash_at (s : string) : list string :=
  match s with
  | EmptyString => [EmptyString]
  | String "/" (String "@" rest) => EmptyString :: split_slash_at rest
  | String c s' =>
      match split_slash_at s' with
      | piece :: pieces => String c piece :: pieces
      | [] => [String c EmptyString]
      end
  end.

End Str.

(** ** The search pattern of an extract-matching test

    [re.escape(test)] turns every character of [test] into a pattern that
    matches exactly that character, and [str.replace] then rewrites, left to
    right and without overlap, each escaped marker into a capture group.  The
    resulting pattern is a sequence of literal characters and groups, which
    is what [tok] records. *)

Inductive tok : Type :=
| TLit (c : ascii)     (* an escaped literal character *)
| TAny                 (* a group of any characters but newline, repeated *)
| TNonSpace.           (* a group of one or more non-space characters *)

(** The pattern when the test holds the non-space marker: each marker
    (dollar, star, dollar) becomes a non-space group. *)
Fixpoint pattern_nonspace (test : string) : list tok :=
  match test with
  | String "$" (String "*" (String "$" rest)) => TNonSpace :: pattern_nonspace rest
  | String c rest => TLit c :: pattern_nonspace rest
  | EmptyString => []
  end.

(** The pattern otherwise: each marker (dollar, star) becomes a greedy
    any-character group. *)
Fixpoint pattern_any (test : string) : list tok :=
  match test with
  | String "$" (String "*" rest) => TAny :: pattern_any rest
  | String c rest => TLit c :: pattern_any rest
  | EmptyString => []
  end.

(** [\s] on a [str] pattern, for the code points below 256. *)
Definition is_space (c : ascii) : bool :=
  let n := nat_of_ascii c in
  ((9 <=? n) && (n <=? 13) || (28 <=? n) && (n <=? 32)
   || (n =? 133) || (n =? 160))%nat.

(** [.] matches everything but a newline. *)
Definition is_dot (c : ascii) : bool := negb (Ascii.eqb c "010"%char).

(** A greedy repetition of the class [ok]: the longest run is tried first,
    then shorter ones, [k taken rest] deciding whether the remainder of the
    pattern matches. *)
Fixpoint greedy {R : Type} (ok : ascii -> bool)
         (k : string -> string -> option R) (taken s : string) : option R :=
  match s with
  | String c s' =>
      if ok c then
        match greedy ok k (taken ++ String c EmptyString) s' with
        | Some r => Some r
        | None => k taken s
        end
      else k taken s
  | EmptyString => k taken s
  end.

(** Match the pattern at the start of [s]; the result lists what each group
    captured. *)
Fixpoint match_here (p : list tok) (s : string) : option (list string) :=
  match p with
  | [] => Some []
  | TLit c :: p' =>
      match s with
      | String d s' => if Ascii.eqb c d then match_here p' s' else None
      | EmptyString => None
      end
  | TAny :: p' =>
      greedy is_dot
             (fun cap rest => option_map (cons cap) (match_here p' rest))
             EmptyString s
  | TNonSpace :: p' =>
      greedy (fun c => negb (is_space c))
             (fun cap rest =>
                match cap with
                | EmptyString => None
                | _ => option_map (cons cap) (match_here p' rest)
                end)
             EmptyString s
  end.

(** [re.search]: the leftmost position at which the pattern matches. *)
Fixpoint search (p : list tok) (s : string) : option (list string) :=
  match match_here p s with
  | Some caps => Some caps
  | None =>
      match s with
      | String _ s' => search p s'
      | EmptyString => None
      end
  end.

(** ** The Python library, as far as the engine calls it on user text *)

(** What [re.search(pattern, value)] does on the patterns it compiles or
    rejects with [re.error]: [re.error] on a malformed pattern, no match, or
    a match object with [group(0)] and [groups()] (a group that took no part
    in the match is [None]). *)
Inductive re_result : Type :=
| ReError
| ReNoMatch
| ReMatch (group0 : string) (groups : list (option string)).

Class PyLib : Type := {
  re_search : string -> string -> re_result;
  (** [int(s)]: [None] stands for [ValueError] *)
  py_int : string -> option Z;
  (** [float(s)] for a finite result: [None] stands for [ValueError] *)
  py_float : string -> option Q
}.

(** ** Knowledge element *)

(** The instance dictionary, in insertion order. *)
Definition Element : Type := list (string * val).

Fixpoint lookup (key : string) (e : Element) : option val :=
  match e with
  | [] => None
  | (k, v) :: e' => if String.eqb k key then Some v else lookup key e'
  end.

(** Names every instance answers to through its class (the methods of
    [Element] and what [object] provides, CPython 3.12). *)
Definition class_attrs : list string :=
  [ "match"; "_matcher";
    "__init__"; "__contains__"; "__getitem__"; "__setitem__"; "__repr__";
    "__module__"; "__dict__"; "__weakref__"; "__doc__"; "__class__";
    "__new__"; "__hash__"; "__str__"; "__getattribute__"; "__setattr__";
    "__delattr__"; "__lt__"; "__le__"; "__eq__"; "__ne__"; "__gt__"; "__ge__";
    "__reduce_ex__"; "__reduce__"; "__getstate__"; "__subclasshook__";
    "__init_subclass__"; "__format__"; "__sizeof__"; "__dir__" ].

Definition is_class_attr (key : string) : bool :=
  existsb (String.eqb key) class_attrs.

(** [hasattr(self, key)], which is also [key in self] *)
Definition hasattr (self : Element) (key : string) : bool :=
  match lookup key self with
  | Some _ => true
  | None => is_class_attr key
  end.

(** [self[key]], that is [getattr(self, key, None)].  What the class
    provides under a name that is not a fact is a method, or another object
    ([VObj]); under [__doc__], [__module__] and [__weakref__] it is a string
    or [None] instead, names that [Element.match] never reads (it passes
    over test fields beginning with two underscores) and that the
    properties of references exclude. *)
Definition __getitem__ (self : Element) (key : string) : val :=
  match lookup key self with
  | Some v => v
  | None => if is_class_attr key then VObj else VNone
  end.

(** [self[key] = v], that is [setattr(self, key, v)], for a name that
    [setattr] stores in the instance dictionary: an existing field keeps its
    place, a new one goes last.  Three names are not stored there:
    [__class__], [__dict__] and [__weakref__], for which [setattr] raises or
    replaces the dictionary as a whole.  The capture fields [Element.match]
    writes hold a slash and are never among them; the properties of
    assignments under a name chosen by the caller take [assignable] (below)
    as a hypothesis. *)
Fixpoint __setitem__ (self : Element) (key : string) (v : val) : Element :=
  match self with
  | [] => [(key, v)]
  | (k, w) :: e' =>
      if String.eqb k key then (k, v) :: e'
      else (k, w) :: __setitem__ e' key v
  end.

(** [Element(facts)] for a mapping or a sequence of pairs *)
Definition Element_init (facts : list (string * val)) : Element :=
  fold_left (fun e kv => __setitem__ e (fst kv) (snd kv)) facts [].

(** Truth value of a match quality ([if match_quality], [if not score_l]) *)
Definition truthy (q : Q) : bool := negb (Qeq_bool q 0).

(** Truth value of a capture name ([if target_l]) *)
Definition truthy_target (t : option string) : bool :=
  match t with
  | None => false
  | Some s => negb (String.eqb s EmptyString)
  end.

(** [if target_l: self[key + '/' + target_l] = value_l] *)
Definition write_back (self : Element) (key : string)
           (target_l : option string) (value_l : val) : Element :=
  match target_l with
  | Some target =>
      if truthy_target target_l
      then __setitem__ self (key ++ "/" ++ target) value_l
      else self
  | None => self
  end.

(** [len(a) / len(b)] *)
Definition len_div (a b : nat) : outcome Q :=
  match b with
  | O => Raise ZeroDivisionError
  | S b' => Ok (Z.of_nat a # Pos.of_succ_nat b')
  end.

Definition is_num (v : val) : bool :=
  match v with
  | VInt _ | VFloat _ => true
  | _ => false
  end.

Definition num (v : val) : Q :=
  match v with
  | VInt n => inject_Z n
  | VFloat x => x
  | _ => 0
  end.

(** What [_matcher] returns: quality, extracted value, capture name. *)
Definition matched : Type := Q * val * option string.

(** [test[3:-1] if test.endswith("/") else test[3:]] *)
Definition regex_pattern (test : string) : string :=
  if Str.endswith "/" test then Str.slice 3 1 test else Str.drop 3 test.

Section Matcher.

Context {lib : PyLib}.

(** [float(s) if "." in s else int(s)], the string left as it is on
    [ValueError] *)
Definition coerce (s : string) : val :=
  if Str.contains "." s then
    match py_float s with Some x => VFloat x | None => VStr s end
  else
    match py_int s with Some n => VInt n | None => VStr s end.

(** The regex branch of [_matcher]: quality, [match_value]. *)
Definition regex_match (value test : string) : Q * val :=
  let pattern := regex_pattern test in
  match re_search pattern value with
  | ReMatch group0 groups =>
      (3 # 4,
       match groups with
       | [] => VStr group0
       | Some g :: _ => VStr g
       | None :: _ => VNone
       end)
  | ReNoMatch | ReError => (0, VStr value)
  end.

(** The extract-matching branch: quality, [match_value], [match_target]. *)
Definition extract_match (value test : string) : outcome matched :=
  let split :=
    if Str.contains "/@" test then
      match Str.split_slash_at test with
      | [t; target] => Ok (t, target)
      | _ => Raise ValueError
      end
    else Ok (test, "match") in
  match split with
  | Raise e => Raise e
  | Ok (test, match_target) =>
      let pattern := if Str.contains "$*$" test then pattern_nonspace test
                     else pattern_any test in
      match search pattern value with
      | Some (g :: _) => Ok (3 # 4, VStr g, Some match_target)
      | Some [] => Raise IndexError
      | None => Ok (0, VStr value, Some match_target)
      end
  end.

(** The star-matching branches: the quality (0 when the test fails). *)
Definition star_match (value test : string) : outcome Q :=
  if Str.startswith "*" test then
    if Str.endswith "*" test then
      let pattern := Str.slice 1 1 test in
      if Str.contains pattern value
      then len_div (String.length pattern) (String.length value)
      else Ok 0
    else
      let pattern := Str.drop 1 test in
      if Str.endswith pattern value
      then len_div (String.length pattern) (String.length value)
      else Ok 0
  else if Str.endswith "*" test then
    let pattern := Str.slice 0 1 test in
    if Str.contains pattern value
    then len_div (String.length pattern) (String.length value)
    else Ok 0
  else
    let '(prefix, suffix) := Str.partition_star test in
    if Str.startswith prefix value && Str.endswith suffix value
    then len_div (String.length prefix + String.length suffix)
                 (String.length value)
    else Ok 0.

(** String against string: quality, [match_value], [match_target]. *)
Definition string_match (value test : string) : outcome matched :=
  if String.eqb value test then Ok (1, VStr value, None)
  else if String.eqb test "*" then Ok (1 # 4, VStr value, None)
  else if Str.startswith "re/" test then
    let '(q, v) := regex_match value test in Ok (q, v, None)
  else if Str.contains "*" test then
    if Str.contains "$*" test then extract_match value test
    else
      match star_match value test with
      | Ok q => Ok (q, VStr value, None)
      | Raise e => Raise e
      end
  else Ok (0, VStr value, None).

(** Number against number: the quality, with [abs(value - test)] computed
    exactly.  (Python converts an [int] facing a [float] to a [float]
    first: the difference is the exact one for an [int] of at most 2**53 in
    absolute value, see [exact_int] below.) *)
Definition numeric_match (value test : Q) : Q :=
  if Qeq_bool value test then 1
  else if negb (Qle_bool (1 # 1000000) (Qabs (value - test))) then 9 # 10
  else 0.

(** The normalisation at the head of [_matcher]: a string facing a number
    is parsed as a number when it can be. *)
Definition normalize (value test : val) : val * val :=
  match value, test with
  | VStr s, (VInt _ | VFloat _) => (coerce s, test)
  | (VInt _ | VFloat _), VStr t => (value, coerce t)
  | _, _ => (value, test)
  end.

(** The [return] of [_matcher]: the value is dropped when the quality is
    zero. *)
Definition returned (result : outcome matched) : outcome matched :=
  match result with
  | Raise e => Raise e
  | Ok (match_quality, match_value, match_target) =>
      Ok (match_quality,
          if truthy match_quality then match_value else VNone,
          match_target)
  end.

(** [Element._matcher(value, test)] *)
Definition _matcher (value test : val) : outcome matched :=
  let match_value := value in
  let '(value, test) := normalize value test in
  returned
    match value, test with
    | VStr v, VStr t => string_match v t
    | _, _ =>
        if is_num value && is_num test
        then Ok (numeric_match (num value) (num test), match_value, None)
        else Ok (0, match_value, None)
    end.

(** The loop of [Element.match] over [test.__dict__.items()]; the second
    component is [self] as the loop leaves it. *)
Fixpoint match_loop (self : Element) (items : list (string * val))
         (score : Q) : outcome Q * Element :=
  match items with
  | [] => (Ok score, self)
  | (key, test) :: items' =>
      if Str.startswith "__" key then match_loop self items' score
      else if hasattr self key then
        match _matcher (__getitem__ self key) test with
        | Raise e => (Raise e, self)
        | Ok (score_l, value_l, target_l) =>
            let self' := write_back self key target_l value_l in
            let score := (score + (100 + score_l))%Q in
            if truthy score_l then match_loop self' items' score
            else (Ok 0%Q, self')
        end
      else (Ok 0%Q, self)
  end.

(** [Element.match(self, test)], the body of the method; a [dict] given as
    [test] is first wrapped by [Element_init].  The call [self.match(test)]
    reaches this body when [self] holds no fact named "match": a fact of
    that name hides the method. *)
Definition Element_match (self test : Element) : outcome Q * Element :=
  match_loop self test 0.

End Matcher.

(** ** Rule *)

(** One entry of a rule's action list, by its Python type. *)
Inductive action : Type :=
| ADict (items : list (val * val))   (* a dict *)
| ATuple (elems : list val)          (* a tuple *)
| AOther.                            (* anything else *)

Definition DEFAULT_NAMESPACE : string := "_".

Record Rule : Type := {
  __id__ : string;
  __namespace__ : string;
  __conditions__ : Element;
  __actions__ : list action;
  __weight__ : Q
}.

(** [Rule(conditions, actions, weight, namespace)] with [conditions] given
    as a dict; [id] is what [GEN_ID] hands out. *)
Definition Rule_init (id : string) (conditions : list (string * val))
           (actions : list action) (weight : Q) (namespace : string) : Rule :=
  {| __id__ := id;
     __namespace__ := if String.eqb namespace EmptyString
                      then DEFAULT_NAMESPACE else namespace;
     __conditions__ := Element_init conditions;
     __actions__ := actions;
     __weight__ := weight |}.

(** [rule.match(knowledge)], for a knowledge element whose method [match]
    is not hidden by a fact of that name *)
Definition Rule_match {lib : PyLib} (rule : Rule) (knowledge : Element)
  : outcome Q * Element :=
  Element_match knowledge (__conditions__ rule).

(** What [execute] works on: the two memories, each an [Element] as in the
    unit test and distinct from the other ([None] when not supplied), and the
    artifacts collaborator, seen as the list of [process] calls it has
    received so far ([None] when no collaborator is supplied). *)
Record env : Type := {
  immediate : option Element;
  long : option Element;
  artifacts : option (list (string * val))
}.

(** [Rule._action_memory(key, value, immediate, long)] *)
Definition _action_memory (key value : val) (e : env) : outcome env :=
  match key with
  | VStr key =>
      let '(key, force_long) :=
        if Str.startswith "@" key then (Str.drop 1 key, true)
        else (key, false) in
      let resolved :=
        match value with
        | VStr s =>
            if Str.startswith "$" s then
              let v_key := Str.drop 1 s in
              match immediate e with
              | None => Raise TypeError
              | Some im =>
                  if hasattr im v_key then Ok (__getitem__ im v_key)
                  else
                    match long e with
                    | Some lg =>
                        if hasattr lg v_key then Ok (__getitem__ lg v_key)
                        else Ok VNone
                    | None => Ok VNone
                    end
              end
            else Ok value
        | _ => Ok value
        end in
      match resolved with
      | Raise x => Raise x
      | Ok value =>
          match long e with
          | Some lg =>
              if hasattr lg key || force_long then
                Ok {| immediate := immediate e;
                      long := Some (__setitem__ lg key value);
                      artifacts := artifacts e |}
              else
                match immediate e with
                | Some im =>
                    Ok {| immediate := Some (__setitem__ im key value);
                          long := long e;
                          artifacts := artifacts e |}
                | None => Ok e
                end
          | None =>
              match immediate e with
              | Some im =>
                  if negb force_long then
                    Ok {| immediate := Some (__setitem__ im key value);
                          long := long e;
                          artifacts := artifacts e |}
                  else Ok e
              | None => Ok e
              end
          end
      end
  | _ => Raise AttributeError
  end.

(** [Rule._is_action_artifact(action)] *)
Definition _is_action_artifact (a : val) : bool :=
  match a with
  | VStr s => Str.startswith "!" s
  | _ => false
  end.

(** [Rule._action_artifact(artifacts, func_name, params)]: the body is
    [pass], the collaborator receives nothing. *)
Definition _action_artifact (artifacts : option (list (string * val)))
           (func_name : val) (params : val) : option (list (string * val)) :=
  artifacts.

(** One turn of the loop of [execute]. *)
Definition exec_action (a : action) (e : env) : outcome env :=
  match a with
  | ADict _ => Raise AttributeError       (* a dict has no [elements] *)
  | ATuple [a0] =>
      if _is_action_artifact a0 then
        Ok {| immediate := immediate e; long := long e;
              artifacts := _action_artifact (artifacts e) a0 VNone |}
      else Raise AttributeError           (* a rule has no [DEFAULT_KEY] *)
  | ATuple [a0; a1] =>
      if _is_action_artifact a0 then
        Ok {| immediate := immediate e; long := long e;
              artifacts := _action_artifact (artifacts e) a0 a1 |}
      else _action_memory a0 a1 e
  | ATuple _ => Ok e
  | AOther => Ok e
  end.

Fixpoint exec_actions (actions : list action) (e : env)
  : outcome unit * env :=
  match actions with
  | [] => (Ok tt, e)
  | a :: actions' =>
      match exec_action a e with
      | Ok e' => exec_actions actions' e'
      | Raise x => (Raise x, e)
      end
  end.

(** [rule.execute(immediate, long, artifacts)] *)
Definition execute (rule : Rule) (e : env) : outcome unit * env :=
  exec_actions (__actions__ rule) e.

(** ** Rule base *)

(** The dict from namespace to its set of rules: namespaces in insertion
    order, each set as the list in which Python enumerates it. *)
Definition RuleBase : Type := list (string * list Rule).

Fixpoint bucket (rb : RuleBase) (ns : string) : option (list Rule) :=
  match rb with
  | [] => None
  | (k, rules) :: rb' => if String.eqb k ns then Some rules else bucket rb' ns
  end.

Definition same_rule (r1 r2 : Rule) : bool :=
  String.eqb (__id__ r1) (__id__ r2).

(** [self[rule.__namespace__].add(rule)], after the set was created if the
    namespace is new.  A rule not yet in the set is placed last here; the
    place Python gives it in the enumeration of the set depends on its
    hash, so the properties of [__iadd__] speak of membership only, and the
    properties of [select] hold for every rule base, whatever the order
    within its sets. *)
Fixpoint add_rule (rb : RuleBase) (rule : Rule) : RuleBase :=
  match rb with
  | [] => [(__namespace__ rule, [rule])]
  | (k, rules) :: rb' =>
      if String.eqb k (__namespace__ rule)
      then (k, if existsb (same_rule rule) rules then rules
               else rules ++ [rule]) :: rb'
      else (k, rules) :: add_rule rb' rule
  end.

(** [rb += rule] *)
Definition __iadd__ (rb : RuleBase) (rule : Rule) : RuleBase :=
  add_rule rb rule.

Inductive strategy : Type :=
| FIRST_MATCH
| BEST_MATCHES
| ALL_MATCHES.

(** The [namespace] argument of [select], by its Python type. *)
Inductive namespace : Type :=
| NsNone
| NsStr (s : string)
| NsTuple (items : list string)
| NsList (items : list string)
| NsInt (n : Z).   (* a value that cannot be iterated *)

(** Truth value of the [namespace] argument *)
Definition ns_truthy (ns : namespace) : bool :=
  match ns with
  | NsNone => false
  | NsStr s => negb (String.eqb s EmptyString)
  | NsTuple items | NsList items =>
      match items with [] => false | _ => true end
  | NsInt n => negb (n =? 0)%Z
  end.

(** [isinstance(namespace, Iterable)]: strings, tuples and lists all are. *)
Definition is_iterable (ns : namespace) : bool :=
  match ns with
  | NsNone | NsInt _ => false
  | NsStr _ | NsTuple _ | NsList _ => true
  end.

(** What [for ns in namespace] enumerates. *)
Definition iterate (ns : namespace) : outcome (list namespace) :=
  match ns with
  | NsNone | NsInt _ => Raise TypeError
  | NsStr s =>
      Ok (map (fun c => NsStr (String c EmptyString)) (list_ascii_of_string s))
  | NsTuple items | NsList items => Ok (map NsStr items)
  end.

(** What the loop [for ns in search_space] of [select] runs over. *)
Definition search_space (rb : RuleBase) (ns : namespace)
  : outcome (list namespace) :=
  if ns_truthy ns && is_iterable ns then Ok [ns]
  else if ns_truthy ns then iterate ns
  else Ok (map (fun kv => NsStr (fst kv)) rb).

(** [self[ns]] guarded by [ns in self]: a list cannot be hashed, a tuple is
    no key of a rule base, whose keys are strings. *)
Definition find_bucket (rb : RuleBase) (ns : namespace)
  : outcome (option (list Rule)) :=
  match ns with
  | NsStr s => Ok (bucket rb s)
  | NsList _ => Raise TypeError
  | NsTuple _ | NsNone | NsInt _ => Ok None
  end.

(** The local variables of [select]. *)
Record locals : Type := {
  best_score : Q;
  best_rule : option Rule;
  weight_calculation : bool;
  cache_matches : option (list Rule)
}.

Definition Qlt_bool (a b : Q) : bool := negb (Qle_bool b a).

(** [cache_matches.append(rule)], with the weight test that follows it *)
Definition cache_append (st : locals) (rule : Rule) : outcome locals :=
  match cache_matches st with
  | None => Raise AttributeError
  | Some cache =>
      Ok {| best_score := best_score st;
            best_rule := best_rule st;
            weight_calculation :=
              if negb (Qeq_bool (__weight__ rule) 1) then true
              else weight_calculation st;
            cache_matches := Some (cache ++ [rule]) |}
  end.

(** The initial local variables of [select]. *)
Definition initial (strat : strategy) : locals :=
  {| best_score := 0;
     best_rule := None;
     weight_calculation := false;
     cache_matches :=
       match strat with
       | BEST_MATCHES | ALL_MATCHES => Some []
       | FIRST_MATCH => None
       end |}.

Section Select.

Context {lib : PyLib}.

(** The loop over the rules of one namespace. *)
Fixpoint scan_rules (strat : strategy) (rules : list Rule) (st : locals)
         (test : Element) : outcome locals * Element :=
  match rules with
  | [] => (Ok st, test)
  | rule :: rules' =>
      match Rule_match rule test with
      | (Raise x, test) => (Raise x, test)
      | (Ok score_l, test) =>
          if truthy score_l then
            match strat with
            | FIRST_MATCH =>
                (Ok {| best_score := score_l;
                       best_rule := Some rule;
                       weight_calculation := weight_calculation st;
                       cache_matches := cache_matches st |}, test)
            | _ =>
                if Qlt_bool (best_score st) score_l then
                  let st :=
                    {| best_score := score_l;
                       best_rule := Some rule;
                       weight_calculation := weight_calculation st;
                       cache_matches :=
                         match strat with
                         | BEST_MATCHES =>
                             option_map (fun _ => []) (cache_matches st)
                         | _ => cache_matches st
                         end |} in
                  match cache_append st rule with
                  | Ok st => scan_rules strat rules' st test
                  | Raise x => (Raise x, test)
                  end
                else if Qeq_bool score_l (best_score st) then
                  match cache_append st rule with
                  | Ok st => scan_rules strat rules' st test
                  | Raise x => (Raise x, test)
                  end
                else scan_rules strat rules' st test
            end
          else scan_rules strat rules' st test
      end
  end.

(** The loop over the search space. *)
Fixpoint scan_spaces (strat : strategy) (rb : RuleBase)
         (space : list namespace) (st : locals) (test : Element)
  : outcome locals * Element :=
  match space with
  | [] => (Ok st, test)
  | ns :: space' =>
      match find_bucket rb ns with
      | Raise x => (Raise x, test)
      | Ok None => scan_spaces strat rb space' st test
      | Ok (Some rules) =>
          match scan_rules strat rules st test with
          | (Raise x, test) => (Raise x, test)
          | (Ok st, test) =>
              match best_rule st, strat with
              | Some _, FIRST_MATCH => (Ok st, test)
              | _, _ => scan_spaces strat rb space' st test
              end
          end
      end
  end.

End Select.

(** ** Tie resolution *)

(** What [select] returns first: nothing, a rule, or a list of rules. *)
Inductive selected : Type :=
| SelNone
| SelRule (rule : Rule)
| SelList (rules : list Rule).

(** [sum(ws)] *)
Definition py_sum (ws : list Q) : Q := fold_left Qplus ws 0.

(** [list(itertools.accumulate(ws))] *)
Fixpoint accumulate_from (acc : Q) (ws : list Q) : list Q :=
  match ws with
  | [] => []
  | w :: ws' => (acc + w)%Q :: accumulate_from (acc + w)%Q ws'
  end.

Definition accumulate (ws : list Q) : list Q :=
  match ws with
  | [] => []
  | w :: ws' => w :: accumulate_from w ws'
  end.

(** [population[bisect(cum_weights, x, 0, len(population) - 1)]] for
    non-decreasing [cum_weights]: the first member whose cumulative weight
    exceeds [x], the last member when there is none. *)
Fixpoint pick {A : Type} (population : list A) (cum_weights : list Q) (x : Q)
  : option A :=
  match population, cum_weights with
  | [p], _ => Some p
  | p :: population', c :: cum_weights' =>
      if Qlt_bool x c then Some p else pick population' cum_weights' x
  | _, _ => None
  end.

(** [random.choices(population)]: a list of one member, at index
    [floor(u * len(population))], where [u] is the number [random()] draws
    from the half-open unit interval. *)
Definition choices_uniform {A : Type} (population : list A) (u : Q)
  : outcome (list A) :=
  let n := inject_Z (Z.of_nat (List.length population)) in
  match nth_error population (Z.to_nat (Qfloor (u * n))) with
  | Some p => Ok [p]
  | None => Raise IndexError
  end.

(** [random.choices(population, weights=weights, k=1)] *)
Definition choices_weighted {A : Type} (population : list A)
           (weights : list Q) (u : Q) : outcome (list A) :=
  let cum_weights := accumulate weights in
  let total := last cum_weights 0 in
  if Qle_bool total 0 then Raise ValueError
  else
    match pick population cum_weights (u * total) with
    | Some p => Ok [p]
    | None => Raise IndexError
    end.

(** The statements of [select] after the scan. *)
Definition resolve (st : locals) (u : Q) : outcome selected :=
  match cache_matches st with
  | Some (rule :: cache') =>
      let cache := rule :: cache' in
      match cache' with
      | [] => Ok (SelRule rule)
      | _ =>
          if weight_calculation st then
            let total_weight := py_sum (map __weight__ cache) in
            if Qeq_bool total_weight 0 then Raise ZeroDivisionError
            else
              let weights :=
                map (fun r => (__weight__ r / total_weight)%Q) cache in
              match choices_weighted cache weights u with
              | Ok (r :: _) => Ok (SelRule r)
              | Ok [] => Raise IndexError
              | Raise x => Raise x
              end
          else
            match choices_uniform cache u with
            | Ok rules => Ok (SelList rules)
            | Raise x => Raise x
            end
      end
  | Some [] | None =>
      match best_rule st with
      | Some rule => Ok (SelRule rule)
      | None => Ok SelNone
      end
  end.

(** [rb.select(test, namespace, strategy)]; [u] is what [random()] would
    draw.  The result is the returned triple and the tested element as the
    call leaves it. *)
Definition select {lib : PyLib} (rb : RuleBase) (test : Element)
           (ns : namespace) (strat : strategy) (u : Q)
  : outcome (selected * Q * option (list Rule)) * Element :=
  match search_space rb ns with
  | Raise x => (Raise x, test)
  | Ok space =>
      match scan_spaces strat rb space (initial strat) test with
      | (Raise x, test) => (Raise x, test)
      | (Ok st, test) =>
          match resolve st u with
          | Ok best => (Ok (best, best_score st, cache_matches st), test)
          | Raise x => (Raise x, test)
          end
      end
  end.

(** ** Reading a scan of the test fields

    [scans self items v self'] describes, field by field, what the fields of
    a test amount to on an element: fields whose name begins with two
    underscores are passed over; every other field either is absent from the
    element as it stands when the field is reached, or is matched with some
    quality, its capture (if the test names one) being written back before
    the next field is reached.  The verdict is [Failed] as soon as a field is
    absent or has quality zero, and [AllMatched qs] with the qualities of the
    fields otherwise. *)

Inductive verdict : Type :=
| AllMatched (qualities : list Q)
| Failed.

(** The sum over the matched fields of 100 plus the field's quality, added
    up in field order. *)
Definition total (start : Q) (qualities : list Q) : Q :=
  fold_left (fun s q => (s + (100 + q))%Q) qualities start.

Definition score_of (v : verdict) : Q :=
  match v with
  | AllMatched qs => total 0 qs
  | Failed => 0
  end.

Inductive scans {lib : PyLib}
  : Element -> list (string * val) -> verdict -> Element -> Prop :=
| scans_end self :
    scans self [] (AllMatched []) self
| scans_reserved self key test items v self' :
    Str.startswith "__" key = true ->
    scans self items v self' ->
    scans self ((key, test) :: items) v self'
| scans_absent self key test items :
    Str.startswith "__" key = false ->
    lookup key self = None ->
    scans self ((key, test) :: items) Failed self
| scans_zero self key test items value q extracted target :
    Str.startswith "__" key = false ->
    lookup key self = Some value ->
    _matcher value test = Ok (q, extracted, target) ->
    truthy q = false ->
    scans self ((key, test) :: items) Failed
          (write_back self key target extracted)
| scans_hit self key test items value q extracted target qs self' :
    Str.startswith "__" key = false ->
    lookup key self = Some value ->
    _matcher value test = Ok (q, extracted, target) ->
    truthy q = true ->
    scans (write_back self key target extracted) items (AllMatched qs) self' ->
    scans self ((key, test) :: items) (AllMatched (q :: qs)) self'
| scans_hit_failed self key test items value q extracted target self' :
    Str.startswith "__" key = false ->
    lookup key self = Some value ->
    _matcher value test = Ok (q, extracted, target) ->
    truthy q = true ->
    scans (write_back self key target extracted) items Failed self' ->
    scans self ((key, test) :: items) Failed self'.

(** ** Data of the unit tests and of the examples below *)

Module Data.

(** The session of [test_rule_select]. *)
Definition session : Element :=
  Element_init [ ("target", VStr "api.openai.com");
                 ("body", VStr "string model=ollama string") ].

Definition rule_openai (ns : string) : Rule :=
  Rule_init "r-1" [("target", VStr "*.openai.com")]
            [ATuple [VStr "destination"; VStr "ollama"]] (2 # 10) ns.

Definition rule_com (ns : string) : Rule :=
  Rule_init "r-2" [("target", VStr "*.com")]
            [ATuple [VStr "destination"; VStr "openai"]] (8 # 10) ns.

Definition rule_level2 : Rule :=
  Rule_init "r-3" [("target", VStr "*.openai.com")]
            [ATuple [VStr "destination"; VStr "Should_Not_Get_Here"]] 1
            "level-2".

(** The rule base of [test_rule_select]. *)
Definition rb_unit_test : RuleBase :=
  __iadd__ (__iadd__ (__iadd__ [] (rule_openai "level-1"))
                     (rule_com "level-1"))
           rule_level2.

(** The better-scoring rule in a namespace added first, the other rule in
    a namespace added second. *)
Definition rb_two_levels : RuleBase :=
  __iadd__ (__iadd__ [] (rule_openai "level-1")) (rule_com "level-2").

(** Two rules of weight 1.0 with the same wildcard condition, each in a
    namespace of its own. *)
Definition rule_any (id ns : string) : Rule :=
  Rule_init id [("target", VStr "*")]
            [ATuple [VStr "destination"; VStr id]] 1 ns.

Definition rb_tie : RuleBase :=
  __iadd__ (__iadd__ [] (rule_any "r-1" "level-1")) (rule_any "r-2" "level-2").

(** A rule whose only action is marked as an artifact call. *)
Definition rule_notify : Rule :=
  Rule_init "r-1" [] [ATuple [VStr "!notify"; VStr "hello"]] 1 "_".

(** Memories and a collaborator that has received no call yet. *)
Definition fresh_env : env :=
  {| immediate := Some session; long := Some []; artifacts := Some [] |}.

(** The session and the conditions of the second rule of
    [test_rule_exec]. *)
Definition chat : Element :=
  Element_init [ ("h_host", VStr "api.openai.com");
                 ("provider", VStr "openai");
                 ("h_body", VStr "string model=llama3.2 string") ].

Definition chat_test : Element :=
  Element_init [ ("provider", VStr "openai");
                 ("h_body", VStr "model=$*$/@model") ].

End Data.

(** ** Two scans side by side

    [lockstep b a] relates the local variables of a scan under
    [BEST_MATCHES] to those of a scan under [ALL_MATCHES] over the same
    rules: the same best score and best rule, and every candidate of the
    first among the candidates of the second. *)

Definition lockstep (b a : locals) : Prop :=
  best_score b = best_score a
  /\ best_rule b = best_rule a
  /\ exists cb ca,
       cache_matches b = Some cb /\ cache_matches a = Some ca /\ incl cb ca.

(** Two runs end alike: both raise the same exception, or both return, with
    results related by [R]; either way they leave the same tested element. *)
Definition alike {A : Type} (R : A -> A -> Prop)
           (x y : outcome A * Element) : Prop :=
  snd x = snd y
  /\ match fst x, fst y with
     | Ok b, Ok a => R b a
     | Raise e1, Raise e2 => e1 = e2
     | _, _ => False
     end.

(** ** Identifier generation

    [GEN_ID_S] is the module-level dict from an identifier category to the
    number of identifiers handed out for it; it is passed explicitly. *)

Definition counters : Type := list (string * Z).

(** [GEN_ID_S.get(ctx, default)] *)
Fixpoint counter_get (cs : counters) (ctx : string) (default : Z) : Z :=
  match cs with
  | [] => default
  | (k, n) :: cs' => if String.eqb k ctx then n else counter_get cs' ctx default
  end.

(** [GEN_ID_S.update({ctx: n})] *)
Fixpoint counter_update (cs : counters) (ctx : string) (n : Z) : counters :=
  match cs with
  | [] => [(ctx, n)]
  | (k, m) :: cs' =>
      if String.eqb k ctx then (k, n) :: cs'
      else (k, m) :: counter_update cs' ctx n
  end.

(** [str(n)] for an integer *)
Definition py_str (n : Z) : string :=
  DecimalString.NilEmpty.string_of_int (Z.to_int n).

(** [GEN_ID(ctx)]: the condition of the conditional expression runs first
    and stores the incremented count ([update] returns [None], so the
    formatted string is always the result); [setdefault] then reads the
    count just stored, and the identifier carries that count plus one. *)
Definition GEN_ID (ctx : string) (cs : counters) : string * counters :=
  let cs := counter_update cs ctx (counter_get cs ctx 0 + 1) in
  ((ctx ++ py_str (counter_get cs ctx 0 + 1))%string, cs).

(** A run of calls of [GEN_ID], one per category listed: the identifiers in
    call order and the final counters. *)
Fixpoint GEN_ID_run (ctxs : list string) (cs : counters)
  : list string * counters :=
  match ctxs with
  | [] => ([], cs)
  | ctx :: ctxs' =>
      let '(id, cs) := GEN_ID ctx cs in
      let '(ids, cs) := GEN_ID_run ctxs' cs in
      (id :: ids, cs)
  end.

(** ** Tests that ask for no capture, and the number of fields tested *)

(** No string test of the mapping holds the extraction marker. *)
Definition capture_free (test : list (string * val)) : bool :=
  forallb (fun kv => match snd kv with
                     | VStr t => negb (Str.contains "$*" t)
                     | _ => true
                     end) test.

(** The number of test fields whose name does not begin with two
    underscores. *)
Definition fields_tested (test : list (string * val)) : nat :=
  List.length (filter (fun kv => negb (Str.startswith "__" (fst kv))) test).

(** ** Shapes of keys, values and actions *)

(** The key of an assignment without its long-term marker. *)
Definition plain_key (key : string) : string :=
  if Str.startswith "@" key then Str.drop 1 key else key.

(** A value that [_action_memory] resolves as a reference. *)
Definition is_reference (value : val) : bool :=
  match value with
  | VStr s => Str.startswith "$" s
  | _ => false
  end.

(** The names [setattr] does not store in the instance dictionary of an
    [Element]: it raises for them, or replaces the whole dictionary. *)
Definition reserved_attrs : list string :=
  [ "__class__"; "__dict__"; "__weakref__" ].

(** A name under which [self[key] = v] stores a field. *)
Definition assignable (key : string) : bool :=
  negb (existsb (String.eqb key) reserved_attrs).

(** An action that [execute] can run: a pair whose first component is a
    string that, its long-term marker removed, is an assignable name (an
    artifact call is one: its name begins with "!"), a singleton marked as
    an artifact call, or an entry of a shape [execute] passes over. *)
Definition runnable (a : action) : bool :=
  match a with
  | ADict _ => false
  | ATuple [a0] => _is_action_artifact a0
  | ATuple [VStr key; _] => assignable (plain_key key)
  | ATuple [_; _] => false
  | ATuple _ => true
  | AOther => true
  end.

(** The action is an assignment to the field [k] of a memory. *)
Definition assigns (k : string) (a : action) : bool :=
  match a with
  | ATuple [VStr key; _] =>
      negb (_is_action_artifact (VStr key)) && String.eqb (plain_key key) k
  | _ => false
  end.

(** A number whose conversion to a [float] is exact: every [float], and an
    [int] of at most 2**53 in absolute value.  For such numbers
    [abs(value - test)] neither rounds an [int] operand nor raises
    [OverflowError]. *)
Definition exact_int (v : val) : bool :=
  match v with
  | VInt n => (Z.abs n <=? 2 ^ 53)%Z
  | _ => true
  end.

(** ** The rules a call of [select] runs over *)

(** The rules of one entry of the search space, in scan order. *)
Definition bucket_of (rb : RuleBase) (ns : namespace) : list Rule :=
  match find_bucket rb ns with
  | Ok (Some rules) => rules
  | _ => []
  end.

(** The rules of the whole search space, in scan order. *)
Definition searched (rb : RuleBase) (ns : namespace) : list Rule :=
  match search_space rb ns with
  | Ok space => flat_map (bucket_of rb) space
  | Raise _ => []
  end.

(** The rules a result names first. *)
Definition selected_rules (best : selected) : list Rule :=
  match best with
  | SelNone => []
  | SelRule rule => [rule]
  | SelList rules => rules
  end.

(** The candidate list of a result, empty when there is none. *)
Definition candidates (cache : option (list Rule)) : list Rule :=
  match cache with
  | Some rules => rules
  | None => []
  end.

(** The score of a rule against a test element. *)
Definition score {lib : PyLib} (test : Element) (rule : Rule) : outcome Q :=
  fst (Rule_match rule test).

(** The rule does not match: its score is zero. *)
Definition no_match {lib : PyLib} (test : Element) (rule : Rule) : Prop :=
  exists s, score test rule = Ok s /\ truthy s = false.

(** What the scans keep true of the rules they hold: the best rule and the
    candidates all satisfy [P]. *)
Definition all_in (P : Rule -> Prop) (st : locals) : Prop :=
  (forall r, best_rule st = Some r -> P r)
  /\ Forall P (candidates (cache_matches st)).

(** What the scans keep true of the weight flag: while it is off, every
    candidate has weight 1.0. *)
Definition flag_sound (st : locals) : Prop :=
  weight_calculation st = false ->
  Forall (fun r => Qeq_bool (__weight__ r) 1 = true)
         (candidates (cache_matches st)).

(** Under [ALL_MATCHES] the flag is on exactly when some candidate has a
    weight other than 1.0. *)
Definition flag_exact (st : locals) : Prop :=
  weight_calculation st
  = existsb (fun r => negb (Qeq_bool (__weight__ r) 1))
            (candidates (cache_matches st)).

(** What the scans under [FIRST_MATCH] keep true: no candidate list, and a
    best score that is zero exactly as long as no rule has been found. *)
Definition first_inv (st : locals) : Prop :=
  cache_matches st = None
  /\ match best_rule st with
     | None => best_score st = 0%Q
     | Some _ => truthy (best_score st) = true
     end.

(** The rule scores at most [s]. *)
Definition below {lib : PyLib} (test : Element) (s : Q) (rule : Rule)
  : Prop :=
  exists sr, score test rule = Ok sr /\ (sr <= s)%Q.

(** The rule matches with a score equal to [s]. *)
Definition tied {lib : PyLib} (test : Element) (s : Q) (rule : Rule)
  : Prop :=
  exists sr, score test rule = Ok sr /\ (sr == s)%Q /\ truthy sr = true.

(** No condition of the rule asks for a capture. *)
Definition reads_only (rule : Rule) : bool :=
  capture_free (__conditions__ rule).

(** What a scan under [BEST_MATCHES] keeps true, [seen] being the rules
    scanned so far: the best score is an upper bound of their scores, and
    the candidates are the rules among them that match with that score. *)
Definition best_inv {lib : PyLib} (test : Element) (st : locals)
           (seen : list Rule) : Prop :=
  exists cache,
    cache_matches st = Some cache
    /\ (0 <= best_score st)%Q
    /\ Forall (below test (best_score st)) seen
    /\ forall r, In r cache <-> In r seen /\ tied test (best_score st) r.



(** ** Filling a search pattern

    The text a pattern stands for once each group is replaced by a captured
    text: [None] when the captures do not go with the groups one to one. *)

Fixpoint instantiate (p : list tok) (caps : list string) : option string :=
  match p, caps with
  | [], [] => Some EmptyString
  | TLit c :: p', _ => option_map (String c) (instantiate p' caps)
  | (TAny | TNonSpace) :: p', cap :: caps' =>
      option_map (append cap) (instantiate p' caps')
  | _, _ => None
  end.

(** The search pattern [_matcher] builds from an extract-matching test. *)
Definition extract_pattern (test : string) : list tok :=
  if Str.contains "$*$" test then pattern_nonspace test
  else pattern_any test.

(** * Properties *)

(** ** Strings *)

Lemma prefix_length (p s : string) :
  String.prefix p s = true -> (String.length p <= String.length s)%nat.
Proof.
  revert s; induction p as [|c p IH]; intros s H; simpl.
  - lia.
  - destruct s as [|d s]; simpl in H; [discriminate|].
    destruct (Ascii.ascii_dec c d); [|discriminate].
    apply IH in H. simpl. lia.
Qed.

Lemma contains_unfold (p s : string) :
  Str.contains p s
  = String.prefix p s
    || match s with
       | EmptyString => false
       | String _ s' => Str.contains p s'
       end.
Proof. destruct s; reflexivity. Qed.

Lemma contains_length (p s : string) :
  Str.contains p s = true -> (String.length p <= String.length s)%nat.
Proof.
  induction s as [|c s IH]; rewrite contains_unfold; intros H;
    apply orb_true_iff in H as [H|H].
  - now apply prefix_length in H.
  - discriminate.
  - now apply prefix_length in H.
  - apply IH in H. simpl. lia.
Qed.

Lemma endswith_length (p s : string) :
  Str.endswith p s = true -> (String.length p <= String.length s)%nat.
Proof.
  unfold Str.endswith; intros H.
  apply andb_true_iff in H as [H _]. now apply Nat.leb_le in H.
Qed.

(** ** The field matcher *)

Section MatcherFacts.

Context {lib : PyLib}.

(** The value is dropped whenever the quality is zero. *)
Lemma returned_zero_drops_value result q extracted target :
  returned result = Ok (q, extracted, target) ->
  truthy q = false -> extracted = VNone.
Proof.
  destruct result as [[[q0 v0] t0]|e]; simpl; [|discriminate].
  intros H Hq; inversion H; subst. now rewrite Hq.
Qed.

Lemma matcher_zero_drops_value value test q extracted target :
  _matcher value test = Ok (q, extracted, target) ->
  truthy q = false -> extracted = VNone.
Proof.
  unfold _matcher. destruct (normalize value test) as [v t].
  apply returned_zero_drops_value.
Qed.

(** An object that is neither a string nor a number matches nothing and
    names no capture. *)
Lemma matcher_object test :
  _matcher VObj test = Ok (0, VNone, None).
Proof. destruct test; reflexivity. Qed.

(** A quality computed by [len_div] is a ratio of lengths. *)
Lemma len_div_bounds a b q :
  len_div a b = Ok q -> (a <= b)%nat -> (0 <= q /\ q <= 1)%Q.
Proof.
  destruct b as [|b]; cbn [len_div]; [discriminate|].
  intros H Hab; inversion H; subst; clear H.
  unfold Qle; cbn [Qnum Qden].
  rewrite Zpos_P_of_succ_nat. lia.
Qed.

(** A ratio of lengths is 1 only when the two lengths are the same. *)
Lemma len_div_one a b q :
  len_div a b = Ok q -> (q == 1)%Q -> a = b.
Proof.
  destruct b as [|b]; cbn [len_div]; [discriminate|].
  intros H; inversion H; subst; clear H.
  unfold Qeq; cbn [Qnum Qden]. rewrite Zpos_P_of_succ_nat. lia.
Qed.

(** For the forms with a star at one end or at both ends, the quality is
    the length of the literal over the length of the value, and lies
    between 0 and 1. *)
Lemma star_match_one_sided value test q :
  Str.startswith "*" test || Str.endswith "*" test = true ->
  star_match value test = Ok q ->
  (0 <= q /\ q <= 1)%Q.
Proof.
  unfold star_match. intros Hform.
  destruct (Str.startswith "*" test) eqn:Hs.
  - destruct (Str.endswith "*" test) eqn:He.
    + destruct (Str.contains _ value) eqn:Hc.
      * intros H. eapply len_div_bounds; eauto using contains_length.
      * intros H; inversion H; subst. split; discriminate.
    + destruct (Str.endswith _ value) eqn:Hc.
      * intros H. eapply len_div_bounds; eauto using endswith_length.
      * intros H; inversion H; subst. split; discriminate.
  - simpl in Hform. rewrite Hform.
    destruct (Str.contains _ value) eqn:Hc.
    + intros H. eapply len_div_bounds; eauto using contains_length.
    + intros H; inversion H; subst. split; discriminate.
Qed.

(** A numeric string that cannot be parsed degrades to quality zero. *)
Lemma matcher_unparseable_int s n :
  Str.contains "." s = false -> py_int s = None ->
  _matcher (VStr s) (VInt n) = Ok (0, VNone, None).
Proof.
  intros Hdot Hparse. unfold _matcher, normalize, coerce.
  now rewrite Hdot, Hparse.
Qed.

Lemma matcher_unparseable_float s n :
  Str.contains "." s = true -> py_float s = None ->
  _matcher (VStr s) (VInt n) = Ok (0, VNone, None).
Proof.
  intros Hdot Hparse. unfold _matcher, normalize, coerce.
  now rewrite Hdot, Hparse.
Qed.

(** A malformed regular expression degrades to quality zero. *)
Lemma matcher_malformed_regex value test :
  String.eqb value test = false ->
  Str.startswith "re/" test = true ->
  re_search (regex_pattern test) value = ReError ->
  _matcher (VStr value) (VStr test) = Ok (0, VNone, None).
Proof.
  intros Hne Hre Herr. unfold _matcher, normalize, string_match.
  rewrite Hne, Hre.
  destruct (String.eqb test "*") eqn:Hstar.
  - apply String.eqb_eq in Hstar; subst; discriminate.
  - unfold regex_match. now rewrite Herr.
Qed.

End MatcherFacts.

Section MatcherClaims.

Context {lib : PyLib}.

(** C6 (the code departs from the claim).  A failed extract-matching test
    returns quality 0 and no value, yet it still returns the capture name:
    value "hello" against test "x=$*" yields the name "match", and
    [Element.match] then writes the field "a/match" with value [None] into
    the tested element before returning 0. *)
Theorem matcher_failed_extract_keeps_capture_name :
  _matcher (VStr "hello") (VStr "x=$*") = Ok (0, VNone, Some "match")
  /\ Element_match [("a", VStr "hello")] [("a", VStr "x=$*")]
     = (Ok 0, [("a", VStr "hello"); ("a/match", VNone)]).
Proof. split; reflexivity. Qed.

(** C7 (the code departs from the claim).  For a test of the form
    prefix*suffix whose prefix and suffix overlap in the value, the quality
    is the sum of their lengths over the length of the value and exceeds
    1: value "aba" against test "ab*ba" yields 4/3. *)
Theorem matcher_overlapping_ends_exceed_one :
  _matcher (VStr "aba") (VStr "ab*ba") = Ok (4 # 3, VStr "aba", None)
  /\ (1 < 4 # 3)%Q.
Proof. split; reflexivity. Qed.

(** C8 (the code departs from the claim).  [_matcher] raises on some
    string pairs: a division by zero for the empty value against "**", an
    unpacking error when the test holds the capture-name separator twice,
    and a missing-group error when the marker only occurs after that
    separator. *)
Theorem matcher_raises :
  _matcher (VStr "") (VStr "**") = Raise ZeroDivisionError
  /\ _matcher (VStr "a") (VStr "$*/@b/@c") = Raise ValueError
  /\ _matcher (VStr "xa*y") (VStr "a*/@$*") = Raise IndexError.
Proof. repeat split; reflexivity. Qed.


(** The loop of [Element.match] computes what the scan says, from any
    running score. *)
Lemma match_loop_scans self items v self' :
  scans self items v self' ->
  forall score,
    match_loop self items score
    = (Ok match v with
          | AllMatched qs => total score qs
          | Failed => 0
          end, self').
Proof.
  induction 1 as
    [ self
    | self key test items v self' Hres _ IH
    | self key test items Hres Habs
    | self key test items value q extracted target Hres Hlook Hm Hq
    | self key test items value q extracted target qs self' Hres Hlook Hm Hq _ IH
    | self key test items value q extracted target self' Hres Hlook Hm Hq _ IH ];
    intros score; cbn [match_loop].
  - reflexivity.
  - rewrite Hres. apply IH.
  - rewrite Hres. unfold hasattr, __getitem__. rewrite Habs.
    destruct (is_class_attr key); [|reflexivity].
    rewrite matcher_object. reflexivity.
  - rewrite Hres. unfold hasattr, __getitem__. rewrite Hlook, Hm, Hq.
    reflexivity.
  - rewrite Hres. unfold hasattr, __getitem__. rewrite Hlook, Hm, Hq.
    apply IH.
  - rewrite Hres. unfold hasattr, __getitem__. rewrite Hlook, Hm, Hq.
    apply IH.
Qed.

(** C9 (amended).  On an element that holds no fact named "match" (such a
    fact hides the method, and the call raises [TypeError] before the scan
    begins), test fields whose name begins with two underscores are passed
    over.  Scanning the other test fields in order, [self.match(test)]
    returns 0 as soon as a field is absent from the element as it stands
    when the field is reached (captures written back by earlier fields
    included) or yields quality 0; when no field fails it returns the sum
    over those fields of 100 plus the field's quality.  The second
    component is the tested element as the call leaves it. *)
Theorem Element_match_scans self test v self' :
  lookup "match" self = None ->
  scans self test v self' ->
  Element_match self test = (Ok (score_of v), self').
Proof.
  intros _ H. unfold Element_match.
  rewrite (match_loop_scans _ _ _ _ H). now destruct v.
Qed.

(** Every call that returns is described by a scan. *)
Lemma match_loop_returns items :
  forall self score s self',
    match_loop self items score = (Ok s, self') ->
    exists v, scans self items v self'
              /\ s = match v with
                     | AllMatched qs => total score qs
                     | Failed => 0
                     end.
Proof.
  induction items as [|[key test] items IH]; intros self score s self' H;
    cbn [match_loop] in H.
  - inversion H; subst. exists (AllMatched []). split; [constructor|reflexivity].
  - destruct (Str.startswith "__" key) eqn:Hres.
    + apply IH in H as (v & Hv & ->). exists v. split; [|reflexivity].
      now apply scans_reserved.
    + unfold hasattr, __getitem__ in H.
      destruct (lookup key self) as [value|] eqn:Hlook.
      * destruct (_matcher value test) as [[[q extracted] target]|x] eqn:Hm;
          [|discriminate].
        destruct (truthy q) eqn:Hq.
        -- apply IH in H as (v & Hv & ->). destruct v as [qs|].
           ++ exists (AllMatched (q :: qs)). split; [|reflexivity].
              eapply scans_hit; eauto.
           ++ exists Failed. split; [|reflexivity].
              eapply scans_hit_failed; eauto.
        -- inversion H; subst. exists Failed. split; [|reflexivity].
           eapply scans_zero; eauto.
      * exists Failed.
        destruct (is_class_attr key).
        -- rewrite matcher_object in H. cbn in H. inversion H; subst.
           split; [|reflexivity]. now apply scans_absent.
        -- inversion H; subst. split; [|reflexivity]. now apply scans_absent.
Qed.

Lemma Element_match_returns self test s self' :
  Element_match self test = (Ok s, self') ->
  exists v, scans self test v self' /\ s = score_of v.
Proof.
  intros H. apply match_loop_returns in H as (v & Hv & ->).
  exists v. split; [assumption|]. now destruct v.
Qed.

End MatcherClaims.

(** C9, an instance: on the session of [test_rule_exec], both fields of the
    test match (qualities 1 and 3/4), the capture is written back, and the
    score is 201.75. *)
Lemma Element_match_scans_witness :
  lookup "match" Data.chat = None
  /\ lookup "h_body/model" Data.chat = None
  /\ forall lib : PyLib,
      @Element_match lib Data.chat Data.chat_test
      = (Ok (807 # 4), Data.chat ++ [("h_body/model", VStr "llama3.2")]).
Proof.
  split; [reflexivity|]. split; [reflexivity|]. intros lib.
  apply (@Element_match_scans lib Data.chat Data.chat_test
           (AllMatched [1; 3 # 4])
           (Data.chat ++ [("h_body/model", VStr "llama3.2")]) eq_refl).
  eapply scans_hit; [reflexivity | reflexivity | reflexivity | reflexivity |].
  eapply scans_hit; [reflexivity | reflexivity | reflexivity | reflexivity |].
  apply scans_end.
Defined.

(** C9 as stated fails.  The test field "__b" is absent from the element,
    yet the call returns 101 rather than 0; and the test field "a/match" is
    absent from the element the call is given, yet the call returns 201.75,
    the field having been written back by the capture of the field before
    it. *)
Lemma match_absent_field_counterexample :
  (lookup "__b" [("a", VStr "x"); ("__b", VStr "y")] = Some (VStr "y")
   /\ hasattr [("a", VStr "x")] "__b" = false
   /\ forall lib : PyLib,
       @Element_match lib [("a", VStr "x")]
                      [("a", VStr "x"); ("__b", VStr "y")]
       = (Ok (101 # 1), [("a", VStr "x")]))
  /\ (hasattr [("a", VStr "x=1")] "a/match" = false
      /\ forall lib : PyLib,
          @Element_match lib [("a", VStr "x=1")]
                         [("a", VStr "x=$*"); ("a/match", VStr "1")]
          = (Ok (807 # 4), [("a", VStr "x=1"); ("a/match", VStr "1")])).
Proof. repeat split. Qed.

(** ** Rule execution *)

Lemma env_eta (e : env) :
  {| immediate := immediate e; long := long e; artifacts := artifacts e |} = e.
Proof. now destruct e. Qed.

Lemma is_action_artifact_marked name :
  _is_action_artifact (VStr (String "!" name)) = true.
Proof. now destruct name. Qed.

(** An action marked as an artifact call changes nothing. *)
Lemma exec_action_artifact_pair name params e :
  exec_action (ATuple [VStr (String "!" name); params]) e = Ok e.
Proof.
  cbn [exec_action]. rewrite is_action_artifact_marked.
  unfold _action_artifact. now rewrite env_eta.
Qed.

Lemma exec_action_artifact_single name e :
  exec_action (ATuple [VStr (String "!" name)]) e = Ok e.
Proof.
  cbn [exec_action]. rewrite is_action_artifact_marked.
  unfold _action_artifact. now rewrite env_eta.
Qed.

(** Dropping from an action list one action that changes nothing. *)
Lemma exec_actions_skip before a after :
  (forall e, exec_action a e = Ok e) ->
  forall e, exec_actions (before ++ a :: after) e
            = exec_actions (before ++ after) e.
Proof.
  intros Ha. induction before as [|b before IH]; intros e; cbn [app exec_actions].
  - now rewrite Ha.
  - destruct (exec_action b e); [apply IH|reflexivity].
Qed.

(** C4 (the code departs from the claim).  A rule whose action list holds a
    dict action raises [AttributeError] when [execute] reaches it (a dict has
    no method [elements]); none of its pairs is applied, and the actions
    after it are not run. *)
Theorem execute_dict_action_raises id conditions items rest weight ns e :
  execute (Rule_init id conditions (ADict items :: rest) weight ns) e
  = (Raise AttributeError, e).
Proof. reflexivity. Qed.

(** C5 (amended).  A pair action whose key is a string beginning with "!",
    and a singleton action holding such a string, are dispatched to
    [_action_artifact], which does nothing: executing the rule gives the same
    result, memories and collaborator as executing it without that action,
    so no memory assignment is made and the collaborator's [process] is not
    called. *)
Theorem execute_artifact_action_does_nothing
        id conditions before name params after weight ns e :
  execute (Rule_init id conditions
             (before ++ ATuple [VStr (String "!" name); params] :: after)
             weight ns) e
  = execute (Rule_init id conditions (before ++ after) weight ns) e
  /\ execute (Rule_init id conditions
                (before ++ ATuple [VStr (String "!" name)] :: after)
                weight ns) e
     = execute (Rule_init id conditions (before ++ after) weight ns) e.
Proof.
  unfold execute; cbn [__actions__ Rule_init]. split.
  - apply exec_actions_skip. intros e'. apply exec_action_artifact_pair.
  - apply exec_actions_skip. intros e'. apply exec_action_artifact_single.
Qed.

(** C5 as stated fails: after the rule with the single action
    ("!notify", "hello") has been executed, the collaborator still has
    received no call. *)
Lemma artifact_pair_counterexample :
  __actions__ Data.rule_notify = [ATuple [VStr "!notify"; VStr "hello"]]
  /\ artifacts Data.fresh_env = Some []
  /\ execute Data.rule_notify Data.fresh_env = (Ok tt, Data.fresh_env)
  /\ artifacts (snd (execute Data.rule_notify Data.fresh_env))
     <> Some [("notify", VStr "hello")].
Proof. repeat split. discriminate. Qed.

(** A pair action whose key carries no marker is a memory assignment. *)
Lemma exec_action_memory_pair key v e :
  _is_action_artifact key = false ->
  exec_action (ATuple [key; v]) e = _action_memory key v e.
Proof. intros H. cbn. now rewrite H. Qed.

(** ** Rule selection *)

Section SelectFacts.

Context {lib : PyLib}.

(** The scans of one namespace under [BEST_MATCHES] and under [ALL_MATCHES]
    proceed side by side. *)
Lemma scan_rules_lockstep rules :
  forall b a test,
    lockstep b a ->
    alike lockstep (scan_rules BEST_MATCHES rules b test)
                   (scan_rules ALL_MATCHES rules a test).
Proof.
  induction rules as [|rule rules IH]; intros b a test Hl; cbn [scan_rules].
  - now split.
  - destruct (Rule_match rule test) as [[score_l|x] test'];
      [|now split].
    destruct (truthy score_l); [|now apply IH].
    destruct Hl as (Hs & Hr & cb & ca & Hb & Ha & Hincl).
    rewrite Hs.
    destruct (Qlt_bool (best_score a) score_l).
    + unfold cache_append; cbn. rewrite Hb, Ha; cbn.
      apply IH. repeat split.
      exists [rule], (ca ++ [rule]). repeat split.
      apply incl_appr, incl_refl.
    + destruct (Qeq_bool score_l (best_score a)).
      * unfold cache_append. rewrite Hb, Ha.
        apply IH. repeat split; try assumption.
        exists (cb ++ [rule]), (ca ++ [rule]). repeat split.
        apply incl_app; [now apply incl_appl | apply incl_appr, incl_refl].
      * apply IH. repeat split; try assumption. now exists cb, ca.
Qed.

Lemma scan_spaces_lockstep rb space :
  forall b a test,
    lockstep b a ->
    alike lockstep (scan_spaces BEST_MATCHES rb space b test)
                   (scan_spaces ALL_MATCHES rb space a test).
Proof.
  induction space as [|ns space IH]; intros b a test Hl; cbn [scan_spaces].
  - now split.
  - destruct (find_bucket rb ns) as [[rules|]|x];
      [|now apply IH|now split].
    pose proof (scan_rules_lockstep rules b a test Hl) as [Ht Hres].
    destruct (scan_rules BEST_MATCHES rules b test) as [[b'|x] t1],
             (scan_rules ALL_MATCHES rules a test) as [[a'|y] t2];
      cbn in Ht, Hres; subst; try contradiction.
    + destruct (best_rule b'), (best_rule a'); now apply IH.
    + now split.
Qed.

(** The candidates of [BEST_MATCHES] are among those of [ALL_MATCHES], the
    best score and the tested element being the same, whenever both calls
    return. *)
Lemma all_matches_superset rb test ns u u' best s c t best' s' c' t' :
  select rb test ns BEST_MATCHES u = (Ok (best, s, c), t) ->
  select rb test ns ALL_MATCHES u' = (Ok (best', s', c'), t') ->
  s = s' /\ t = t'
  /\ exists cb ca, c = Some cb /\ c' = Some ca /\ incl cb ca.
Proof.
  unfold select. intros Hb Ha.
  assert (Hl : lockstep (initial BEST_MATCHES) (initial ALL_MATCHES)).
  { repeat split. exists [], []. repeat split. apply incl_refl. }
  destruct (search_space rb ns) as [space|x]; [|discriminate].
  pose proof (scan_spaces_lockstep rb space _ _ test Hl) as [Ht Hres].
  destruct (scan_spaces BEST_MATCHES rb space (initial BEST_MATCHES) test)
    as [[b|x] t1]; [|discriminate].
  destruct (scan_spaces ALL_MATCHES rb space (initial ALL_MATCHES) test)
    as [[a|y] t2]; [|discriminate].
  cbn in Ht, Hres. destruct Hres as (Hs & _ & cb & ca & Hcb & Hca & Hincl).
  destruct (resolve b u); [|discriminate].
  destruct (resolve a u'); [|discriminate].
  inversion Hb; inversion Ha; subst.
  repeat split; try assumption. now exists cb, ca.
Qed.

(** A single candidate is returned as it is, whatever the random draw. *)
Lemma resolve_single st rule u :
  cache_matches st = Some [rule] -> resolve st u = Ok (SelRule rule).
Proof. unfold resolve. now intros ->. Qed.

(** With several candidates all of weight 1.0 the first component is what
    [random.choices] returns, a list. *)
Lemma resolve_uniform st r1 r2 cache u :
  cache_matches st = Some (r1 :: r2 :: cache) ->
  weight_calculation st = false ->
  resolve st u
  = match choices_uniform (r1 :: r2 :: cache) u with
    | Ok rules => Ok (SelList rules)
    | Raise x => Raise x
    end.
Proof. unfold resolve. now intros -> ->. Qed.

Lemma pick_In {A : Type} (population : list A) :
  forall cum_weights x p,
    pick population cum_weights x = Some p -> In p population.
Proof.
  induction population as [|q population IH]; intros cum_weights x p H;
    [discriminate|].
  cbn [pick] in H. destruct population as [|q' population].
  - inversion H; subst. now left.
  - destruct cum_weights as [|c cum_weights]; [discriminate|].
    destruct (Qlt_bool x c).
    + inversion H; subst. now left.
    + right. eapply IH; eassumption.
Qed.

(** With several candidates of which one has a weight other than 1.0, the
    first component is a rule, and one of the candidates. *)
Lemma resolve_weighted st r1 r2 cache u sel :
  cache_matches st = Some (r1 :: r2 :: cache) ->
  weight_calculation st = true ->
  resolve st u = Ok sel ->
  exists rule, sel = SelRule rule /\ In rule (r1 :: r2 :: cache).
Proof.
  unfold resolve, choices_weighted. intros -> -> H.
  destruct (Qeq_bool _ 0); [discriminate|].
  destruct (Qle_bool _ 0); [discriminate|].
  destruct (pick _ _ _) as [p|] eqn:Hp; [|discriminate].
  inversion H; subst. exists p. split; [reflexivity|].
  eapply pick_In; eassumption.
Qed.

(** A namespace given as a non-empty string is the whole search space. *)
Lemma search_space_string rb c s :
  search_space rb (NsStr (String c s)) = Ok [NsStr (String c s)].
Proof. reflexivity. Qed.

(** A namespace absent from the rule base is skipped. *)
Lemma select_missing_namespace rb test c s strat u :
  bucket rb (String c s) = None ->
  select rb test (NsStr (String c s)) strat u
  = (Ok (SelNone, 0%Q, cache_matches (initial strat)), test).
Proof.
  intros H. unfold select. rewrite search_space_string.
  cbn [scan_spaces find_bucket]. rewrite H. now destruct strat.
Qed.

(** C1 (the code departs from the claim).  Under [ALL_MATCHES] a rule that
    scores below the best score seen so far is not added to the candidates:
    with the rule for "*.openai.com" scanned before the rule for "*.com",
    the latter scores 100 + 4/14 on the session and yet the candidate list
    holds the former alone. *)
Theorem all_matches_drops_lower_score (u : Q) :
  select Data.rb_two_levels Data.session NsNone ALL_MATCHES u
  = (Ok (SelRule (Data.rule_openai "level-1"), 1411 # 14,
         Some [Data.rule_openai "level-1"]), Data.session)
  /\ Rule_match (Data.rule_com "level-2") Data.session
     = (Ok (1404 # 14), Data.session)
  /\ ~ In (Data.rule_com "level-2") [Data.rule_openai "level-1"].
Proof.
  repeat split.
  intros [H|[]]. discriminate.
Qed.

(** C2 (the code departs from the claim).  When several candidates all have
    weight 1.0 the first component of the result is a list holding the
    chosen rule, not a rule: for the two wildcard rules and the draws 0 and
    3/4 it is the one-element list of the first and of the second rule. *)
Theorem uniform_tie_returns_list :
  select Data.rb_tie Data.session NsNone BEST_MATCHES 0
  = (Ok (SelList [Data.rule_any "r-1" "level-1"], 401 # 4,
         Some [Data.rule_any "r-1" "level-1"; Data.rule_any "r-2" "level-2"]),
     Data.session)
  /\ select Data.rb_tie Data.session NsNone BEST_MATCHES (3 # 4)
     = (Ok (SelList [Data.rule_any "r-2" "level-2"], 401 # 4,
            Some [Data.rule_any "r-1" "level-1";
                  Data.rule_any "r-2" "level-2"]),
        Data.session).
Proof. split; reflexivity. Qed.

(** C3 (the code departs from the claim).  A non-empty tuple of namespaces
    is looked up as one key, which no rule base has, so nothing is searched;
    a non-empty list of namespaces raises [TypeError], a list being
    unhashable.  On the rule base of the unit test the namespace "level-1"
    given as a string is searched and yields its best rule. *)
Theorem select_iterable_namespace rb test n namespaces strat u :
  select rb test (NsTuple (n :: namespaces)) strat u
  = (Ok (SelNone, 0%Q, cache_matches (initial strat)), test)
  /\ select rb test (NsList (n :: namespaces)) strat u
     = (Raise TypeError, test)
  /\ select Data.rb_unit_test Data.session (NsStr "level-1") BEST_MATCHES u
     = (Ok (SelRule (Data.rule_openai "level-1"), 1411 # 14,
            Some [Data.rule_openai "level-1"]), Data.session).
Proof.
  repeat split. now destruct strat.
Qed.

End SelectFacts.

(** ** Identifier generation *)

Lemma counter_get_update_same cs ctx n d :
  counter_get (counter_update cs ctx n) ctx d = n.
Proof.
  induction cs as [|[k m] cs IH]; cbn.
  - now rewrite String.eqb_refl.
  - destruct (String.eqb k ctx) eqn:E; cbn; rewrite E; [reflexivity|apply IH].
Qed.

Lemma counter_get_update_other cs ctx ctx' n d :
  String.eqb ctx ctx' = false ->
  counter_get (counter_update cs ctx n) ctx' d = counter_get cs ctx' d.
Proof.
  intros Hne. induction cs as [|[k m] cs IH]; cbn.
  - now rewrite Hne.
  - destruct (String.eqb k ctx) eqn:E; cbn.
    + apply String.eqb_eq in E; subst. now rewrite Hne.
    + destruct (String.eqb k ctx'); [reflexivity|apply IH].
Qed.

Lemma py_str_inj a b : py_str a = py_str b -> a = b.
Proof.
  unfold py_str. intros H.
  apply DecimalZ.to_int_inj.
  pose proof (DecimalString.NilEmpty.isi (Z.to_int a)) as Ha.
  pose proof (DecimalString.NilEmpty.isi (Z.to_int b)) as Hb.
  rewrite H in Ha. rewrite Ha in Hb. now inversion Hb.
Qed.

Lemma append_inj_r (p a b : string) :
  (p ++ a)%string = (p ++ b)%string -> a = b.
Proof.
  induction p as [|c p IH]; cbn; intros H; [assumption|].
  inversion H. now apply IH.
Qed.

(** The count of a category after a run of calls. *)
Lemma GEN_ID_run_count ctxs :
  forall cs ctx,
    counter_get (snd (GEN_ID_run ctxs cs)) ctx 0
    = (counter_get cs ctx 0
       + Z.of_nat (count_occ string_dec ctxs ctx))%Z.
Proof.
  induction ctxs as [|c ctxs IH]; intros cs ctx; cbn [GEN_ID_run count_occ].
  - cbn. lia.
  - unfold GEN_ID.
    destruct (GEN_ID_run ctxs _) as [ids cs'] eqn:E. cbn [snd].
    change cs' with (snd (ids, cs')). rewrite <- E, IH.
    destruct (string_dec c ctx) as [->|Hne].
    + rewrite counter_get_update_same. lia.
    + rewrite counter_get_update_other; [lia|].
      now apply String.eqb_neq.
Qed.

Lemma GEN_ID_fst ctx cs :
  fst (GEN_ID ctx cs) = (ctx ++ py_str (counter_get cs ctx 0 + 2))%string.
Proof.
  unfold GEN_ID. cbn [fst]. rewrite counter_get_update_same.
  f_equal. f_equal. lia.
Qed.

Lemma GEN_ID_snd_count ctx cs :
  counter_get (snd (GEN_ID ctx cs)) ctx 0 = (counter_get cs ctx 0 + 1)%Z.
Proof. unfold GEN_ID. cbn [snd]. apply counter_get_update_same. Qed.

(** X1.  After any run of calls of [GEN_ID], the next identifier for a
    category is the category followed by the decimal form of: the count the
    category started with, plus the number of earlier calls for it, plus 2.
    Calls for other categories do not count; from the empty dict the first
    identifier of a category carries the number 2. *)
Theorem GEN_ID_numbering before ctx cs :
  fst (GEN_ID ctx (snd (GEN_ID_run before cs)))
  = (ctx ++ py_str (counter_get cs ctx 0
                    + Z.of_nat (count_occ string_dec before ctx) + 2))%string.
Proof. now rewrite GEN_ID_fst, GEN_ID_run_count. Qed.

(** X2.  Two calls of [GEN_ID] for the same category never return the same
    identifier, whatever calls are made before, between and for which
    categories. *)
Theorem GEN_ID_distinct before between ctx cs :
  let cs1 := snd (GEN_ID_run before cs) in
  let '(id1, cs2) := GEN_ID ctx cs1 in
  let cs3 := snd (GEN_ID_run between cs2) in
  String.eqb id1 (fst (GEN_ID ctx cs3)) = false.
Proof.
  cbn zeta. destruct (GEN_ID ctx _) as [id1 cs2] eqn:E.
  apply String.eqb_neq. intros Heq.
  assert (Hid1 : id1 = fst (GEN_ID ctx (snd (GEN_ID_run before cs))))
    by now rewrite E.
  assert (Hcs2 : cs2 = snd (GEN_ID ctx (snd (GEN_ID_run before cs))))
    by now rewrite E.
  rewrite Hid1, !GEN_ID_fst in Heq.
  apply append_inj_r, py_str_inj in Heq.
  rewrite Hcs2 in Heq.
  rewrite !GEN_ID_run_count, GEN_ID_snd_count, GEN_ID_run_count in Heq. lia.
Qed.

(** ** The element as a container *)

Lemma lookup_setitem self key key' v :
  lookup key' (__setitem__ self key v)
  = if String.eqb key key' then Some v else lookup key' self.
Proof.
  induction self as [|[k w] self IH]; cbn [__setitem__ lookup].
  - reflexivity.
  - destruct (String.eqb k key) eqn:E.
    + apply String.eqb_eq in E; subst. cbn [lookup].
      now destruct (String.eqb key key').
    + cbn [lookup]. destruct (String.eqb k key') eqn:E'.
      * apply String.eqb_eq in E'; subst.
        now rewrite String.eqb_sym, E.
      * apply IH.
Qed.

Lemma keys_setitem self key v :
  map fst (__setitem__ self key v)
  = if existsb (String.eqb key) (map fst self) then map fst self
    else map fst self ++ [key].
Proof.
  induction self as [|[k w] self IH]; cbn [__setitem__ map existsb fst app].
  - reflexivity.
  - rewrite (String.eqb_sym key k). destruct (String.eqb k key); cbn [orb map fst].
    + reflexivity.
    + rewrite IH. now destruct (existsb _ _).
Qed.

Lemma NoDup_keys_setitem self key v :
  NoDup (map fst self) -> NoDup (map fst (__setitem__ self key v)).
Proof.
  intros H. rewrite keys_setitem.
  destruct (existsb _ _) eqn:E; [assumption|].
  apply NoDup_app; [assumption| repeat constructor; intros [] |].
  intros x Hx [<-|[]].
  assert (existsb (String.eqb key) (map fst self) = true); [|congruence].
  apply existsb_exists. exists key. split; [assumption|apply String.eqb_refl].
Qed.

Lemma fold_setitem_lookup facts :
  forall e key,
    lookup key (fold_left (fun e kv => __setitem__ e (fst kv) (snd kv)) facts e)
    = match lookup key (rev facts) with
      | Some v => Some v
      | None => lookup key e
      end.
Proof.
  induction facts as [|[k v] facts IH]; intros e key; cbn [fold_left rev fst snd].
  - reflexivity.
  - rewrite IH, lookup_setitem.
    assert (Happ : forall a b, lookup key (a ++ b)
                   = match lookup key a with
                     | Some x => Some x
                     | None => lookup key b
                     end).
    { intros a b. induction a as [|[k' w] a IHa]; cbn; [reflexivity|].
      now destruct (String.eqb k' key). }
    rewrite Happ. destruct (lookup key (rev facts)); [reflexivity|].
    cbn [lookup]. now destruct (String.eqb k key).
Qed.

Lemma fold_setitem_NoDup facts :
  forall e,
    NoDup (map fst e) ->
    NoDup (map fst (fold_left (fun e kv => __setitem__ e (fst kv) (snd kv))
                              facts e)).
Proof.
  induction facts as [|[k v] facts IH]; intros e H; cbn [fold_left];
    [assumption|].
  apply IH. now apply NoDup_keys_setitem.
Qed.

(** X3.  Under an assignable name, setting a field and reading it back
    gives the value set, reading any other field gives what it gave before,
    and membership changes for the field set only. *)
Theorem Element_setitem_getitem self key key' v :
  assignable key = true ->
  __getitem__ (__setitem__ self key v) key'
  = (if String.eqb key key' then v else __getitem__ self key')
  /\ hasattr (__setitem__ self key v) key'
     = (String.eqb key key' || hasattr self key').
Proof.
  intros _. unfold __getitem__, hasattr. rewrite lookup_setitem.
  now destruct (String.eqb key key').
Qed.

(** X3, an instance: the field "destination" set on the session of the
    unit test, which does not hold it; the field "target" reads as before. *)
Lemma Element_setitem_getitem_witness :
  assignable "destination" = true
  /\ hasattr Data.session "destination" = false
  /\ (__getitem__ (__setitem__ Data.session "destination" (VStr "ollama"))
                  "destination" = VStr "ollama"
      /\ hasattr (__setitem__ Data.session "destination" (VStr "ollama"))
                 "destination" = true)
  /\ (__getitem__ (__setitem__ Data.session "destination" (VStr "ollama"))
                  "target" = __getitem__ Data.session "target"
      /\ hasattr (__setitem__ Data.session "destination" (VStr "ollama"))
                 "target" = hasattr Data.session "target").
Proof.
  split; [reflexivity|]. split; [reflexivity|]. split.
  - exact (Element_setitem_getitem Data.session "destination" "destination"
             (VStr "ollama") eq_refl).
  - exact (Element_setitem_getitem Data.session "destination" "target"
             (VStr "ollama") eq_refl).
Defined.

(** X4.  An element built from a sequence of pairs with assignable names has
    each field name once, and a field holds the value of the last pair that
    names it. *)
Theorem Element_init_last_wins facts key :
  forallb (fun kv => assignable (fst kv)) facts = true ->
  NoDup (map fst (Element_init facts))
  /\ lookup key (Element_init facts) = lookup key (rev facts).
Proof.
  intros _. unfold Element_init. split.
  - apply fold_setitem_NoDup. constructor.
  - rewrite fold_setitem_lookup. now destruct (lookup key (rev facts)).
Qed.

(** X4, an instance: a sequence that names "target" twice. *)
Lemma Element_init_last_wins_witness :
  forallb (fun kv => assignable (fst kv))
          [("target", VStr "a"); ("body", VStr "b"); ("target", VStr "c")]
  = true
  /\ NoDup (map fst (Element_init [("target", VStr "a"); ("body", VStr "b");
                                   ("target", VStr "c")]))
  /\ lookup "target" (Element_init [("target", VStr "a"); ("body", VStr "b");
                                    ("target", VStr "c")])
     = Some (VStr "c").
Proof.
  split; [reflexivity|].
  exact (Element_init_last_wins
           [("target", VStr "a"); ("body", VStr "b"); ("target", VStr "c")]
           "target" eq_refl).
Defined.

(** ** More on the field matcher *)

Lemma substring_0_length (a b : string) :
  String.substring 0 (String.length a) (a ++ b) = a.
Proof. induction a as [|c a IH]; cbn; [now destruct b|now rewrite IH]. Qed.

Lemma substring_skip (a b : string) n :
  String.substring (String.length a) n (a ++ b) = String.substring 0 n b.
Proof. induction a as [|c a IH]; cbn; [reflexivity|apply IH]. Qed.

Lemma append_length (a b : string) :
  String.length (a ++ b) = (String.length a + String.length b)%nat.
Proof. induction a as [|c a IH]; cbn; [reflexivity|now rewrite IH]. Qed.

Lemma substring_0_all (b : string) :
  String.substring 0 (String.length b) b = b.
Proof. induction b as [|c b IH]; cbn; [reflexivity|now rewrite IH]. Qed.

Lemma endswith_append (a b : string) : Str.endswith b (a ++ b) = true.
Proof.
  unfold Str.endswith. rewrite append_length.
  replace (String.length a + String.length b - String.length b)%nat
    with (String.length a) by lia.
  rewrite substring_skip, substring_0_all, String.eqb_refl, andb_true_r.
  apply Nat.leb_le. lia.
Qed.

(** X5.  The pattern of a regex test is what stands between the marker and
    the closing slash; without a closing slash it is all that follows the
    marker, except that a pattern ending in a slash loses that slash. *)
Theorem regex_pattern_delimiters (p : string) :
  regex_pattern ("re/" ++ p ++ "/") = p
  /\ regex_pattern ("re/" ++ p)
     = if Str.endswith "/" p then Str.slice 0 1 p else p.
Proof.
  split.
  - unfold regex_pattern.
    change ("re/" ++ p ++ "/")%string with ("re/" ++ (p ++ "/"))%string.
    assert (He : Str.endswith "/" ("re/" ++ (p ++ "/")) = true).
    { change ("re/" ++ (p ++ "/"))%string
        with (String "r" (String "e" (String "/" (p ++ "/")))).
      replace (String "r" (String "e" (String "/" (p ++ "/"))))
        with (("re/" ++ p) ++ "/")%string by reflexivity.
      apply endswith_append. }
    rewrite He. unfold Str.slice. cbn [append String.length].
    rewrite append_length. cbn [String.length String.substring].
    replace (S (S (S (String.length p + 1))) - 1 - 3)%nat
      with (String.length p) by lia.
    apply substring_0_length.
  - unfold regex_pattern. destruct p as [|c p]; [reflexivity|].
    assert (He : Str.endswith "/" ("re/" ++ String c p)
                 = Str.endswith "/" (String c p)).
    { unfold Str.endswith. cbn [append String.length].
      cbn [Nat.leb Nat.sub]. rewrite !Nat.sub_0_r. reflexivity. }
    rewrite He. destruct (Str.endswith "/" (String c p)); [|reflexivity].
    unfold Str.slice. cbn [append String.length Nat.sub].
    rewrite !Nat.sub_0_r. reflexivity.
Qed.

Section MatcherRange.

Context {lib : PyLib}.

Lemma len_div_range a b q :
  len_div a b = Ok q -> (a <= 2 * b)%nat -> (0 <= q /\ q <= 2)%Q.
Proof.
  destruct b as [|b]; cbn [len_div]; [discriminate|].
  intros H Hab; inversion H; subst; clear H.
  unfold Qle; cbn [Qnum Qden].
  rewrite Zpos_P_of_succ_nat. lia.
Qed.

Lemma star_match_range value test q :
  star_match value test = Ok q -> (0 <= q /\ q <= 2)%Q.
Proof.
  assert (Hz : (0 <= 0 /\ 0 <= 2)%Q) by (split; discriminate).
  unfold star_match.
  destruct (Str.startswith "*" test).
  - destruct (Str.endswith "*" test).
    + destruct (Str.contains _ value) eqn:Hc.
      * intros H. eapply len_div_range; [eassumption|].
        apply contains_length in Hc. lia.
      * intros H; now inversion H.
    + destruct (Str.endswith _ value) eqn:Hc.
      * intros H. eapply len_div_range; [eassumption|].
        apply endswith_length in Hc. lia.
      * intros H; now inversion H.
  - destruct (Str.endswith "*" test).
    + destruct (Str.contains _ value) eqn:Hc.
      * intros H. eapply len_div_range; [eassumption|].
        apply contains_length in Hc. lia.
      * intros H; now inversion H.
    + destruct (Str.partition_star test) as [prefix suffix].
      destruct (Str.startswith prefix value) eqn:Hp; cbn [andb].
      * destruct (Str.endswith suffix value) eqn:Hs.
        -- intros H. eapply len_div_range; [eassumption|].
           apply prefix_length in Hp. apply endswith_length in Hs. lia.
        -- intros H; now inversion H.
      * intros H; now inversion H.
Qed.

Lemma string_match_range value test q extracted target :
  string_match value test = Ok (q, extracted, target) ->
  (0 <= q /\ q <= 2)%Q.
Proof.
  unfold string_match.
  destruct (String.eqb value test);
    [intros H; inversion H; split; discriminate|].
  destruct (String.eqb test "*");
    [intros H; inversion H; split; discriminate|].
  destruct (Str.startswith "re/" test).
  - unfold regex_match. destruct (re_search _ _);
      intros H; inversion H; split; discriminate.
  - destruct (Str.contains "*" test);
      [|intros H; inversion H; split; discriminate].
    destruct (Str.contains "$*" test).
    + unfold extract_match.
      destruct (Str.contains "/@" test).
      * destruct (Str.split_slash_at test) as [|a [|b [|c l]]];
          try discriminate.
        destruct (search _ value) as [[|g gs]|];
          intros H; inversion H; split; discriminate.
      * destruct (search _ value) as [[|g gs]|];
          intros H; inversion H; split; discriminate.
    + destruct (star_match value test) as [q'|] eqn:Hs; [|discriminate].
      intros H; inversion H; subst. eapply star_match_range; eassumption.
Qed.

Lemma numeric_match_range a b :
  (0 <= numeric_match a b /\ numeric_match a b <= 2)%Q.
Proof.
  unfold numeric_match. destruct (Qeq_bool a b); [split; discriminate|].
  destruct (negb _); split; discriminate.
Qed.

Lemma returned_inv result q extracted target :
  returned result = Ok (q, extracted, target) ->
  exists extracted', result = Ok (q, extracted', target).
Proof.
  destruct result as [[[q0 v0] t0]|e]; cbn; [|discriminate].
  intros H; inversion H; subst. now exists v0.
Qed.

Lemma matcher_inv value test q extracted target :
  _matcher value test = Ok (q, extracted, target) ->
  (exists v t extracted',
      value = VStr v /\ test = VStr t
      /\ string_match v t = Ok (q, extracted', target))
  \/ (target = None /\ (0 <= q /\ q <= 2)%Q).
Proof.
  unfold _matcher. intros H.
  destruct (normalize value test) as [v t] eqn:Hn.
  apply returned_inv in H as [extracted' H].
  assert (Hz : (0 <= 0 /\ 0 <= 2)%Q) by (split; discriminate).
  destruct v as [sv| | | |], t as [st| | | |];
    try (right; cbn [is_num andb] in H; inversion H; subst;
         split; [reflexivity|auto using numeric_match_range]; fail).
  left. exists sv, st, extracted'. repeat split; [| |assumption].
  - unfold normalize, coerce in Hn.
    destruct value, test; try (inversion Hn; reflexivity);
      repeat match type of Hn with
             | context [if ?c then _ else _] => destruct c
             | context [match ?c with _ => _ end] => destruct c
             end; inversion Hn; reflexivity.
  - unfold normalize, coerce in Hn.
    destruct value, test; try (inversion Hn; reflexivity);
      repeat match type of Hn with
             | context [if ?c then _ else _] => destruct c
             | context [match ?c with _ => _ end] => destruct c
             end; inversion Hn; reflexivity.
Qed.

(** X6.  Whatever [_matcher] returns, the quality lies between 0 and 2; the
    upper bound is reached, by a test whose prefix and suffix each span the
    whole value. *)
Theorem matcher_quality_range value test :
  match _matcher value test with
  | Ok (q, _, _) => (0 <= q /\ q <= 2)%Q
  | Raise _ => True
  end
  /\ _matcher (VStr "aa") (VStr "aa*aa") = Ok (4 # 2, VStr "aa", None).
Proof.
  split; [|reflexivity].
  destruct (_matcher value test) as [[[q extracted] target]|] eqn:H;
    [|exact I].
  apply matcher_inv in H as [(v & t & e' & _ & _ & H)|[_ H]]; [|assumption].
  eapply string_match_range; eassumption.
Qed.

Lemma string_match_target value test q extracted name :
  string_match value test = Ok (q, extracted, Some name) ->
  Str.contains "$*" test = true
  /\ (Str.contains "/@" test = false -> name = "match").
Proof.
  unfold string_match.
  destruct (String.eqb value test); [discriminate|].
  destruct (String.eqb test "*"); [discriminate|].
  destruct (Str.startswith "re/" test);
    [destruct (regex_match value test); discriminate|].
  destruct (Str.contains "*" test); [|discriminate].
  destruct (Str.contains "$*" test);
    [|destruct (star_match value test); discriminate].
  intros H. split; [reflexivity|]. intros Hno.
  unfold extract_match in H. rewrite Hno in H.
  destruct (search _ value) as [[|g gs]|]; inversion H; reflexivity.
Qed.

(** X7.  [_matcher] returns a capture name only for a string matched
    against a string test holding the extraction marker; when the test has
    no name suffix the name is "match". *)
Theorem matcher_capture_name_origin value test :
  match _matcher value test with
  | Ok (_, _, Some name) =>
      exists v t,
        value = VStr v /\ test = VStr t
        /\ Str.contains "$*" t = true
        /\ (Str.contains "/@" t = false -> name = "match")
  | _ => True
  end.
Proof.
  destruct (_matcher value test) as [[[q extracted] [name|]]|] eqn:H;
    try exact I.
  apply matcher_inv in H as [(v & t & e' & -> & -> & H)|[H _]];
    [|discriminate].
  exists v, t. repeat split; eapply string_match_target; eassumption.
Qed.

Lemma numeric_match_sym a b : numeric_match a b = numeric_match b a.
Proof.
  unfold numeric_match. now rewrite Qeq_bool_comm, Qabs_Qminus.
Qed.

(** X8.  A string and a number, both within the numbers whose conversion to
    a [float] is exact (the string once parsed), are compared the same way
    whichever of the two is the value and whichever the test: both calls
    return, with the same quality and no capture name, and the extracted
    value is the value as it was given (not the parsed number), or none
    when the quality is zero. *)
Theorem matcher_number_string_symmetric (s : string) (x : val) :
  exact_int x = true ->
  exact_int (coerce s) = true ->
  match x with
  | VInt _ | VFloat _ =>
      exists q,
        _matcher (VStr s) x
        = Ok (q, if truthy q then VStr s else VNone, None)
        /\ _matcher x (VStr s)
           = Ok (q, if truthy q then x else VNone, None)
  | _ => True
  end.
Proof.
  intros _ _.
  destruct x as [| n | y | |]; try exact I;
    unfold _matcher, normalize, coerce;
    destruct (Str.contains "." s);
    try destruct (py_float s); try destruct (py_int s);
    cbn [is_num andb num returned];
    try (eexists; split; [reflexivity|]; rewrite numeric_match_sym;
         reflexivity);
    exists 0%Q; split; reflexivity.
Qed.

End MatcherRange.

(** X8, an instance: the string "100.0" of the unit test against the [int]
    100, whatever [float] makes of the string. *)
Lemma matcher_number_string_symmetric_witness :
  exact_int (VInt 100) = true
  /\ forall lib : PyLib,
      exact_int (@coerce lib "100.0") = true
      /\ exists q,
          @_matcher lib (VStr "100.0") (VInt 100)
          = Ok (q, if truthy q then VStr "100.0" else VNone, None)
          /\ @_matcher lib (VInt 100) (VStr "100.0")
             = Ok (q, if truthy q then VInt 100 else VNone, None).
Proof.
  split; [reflexivity|]. intros lib.
  assert (H : exact_int (@coerce lib "100.0") = true).
  { unfold coerce. cbn [Str.contains]. cbn.
    destruct (py_float "100.0"); reflexivity. }
  split; [exact H|].
  exact (@matcher_number_string_symmetric lib "100.0" (VInt 100) eq_refl H).
Defined.

(** ** More on [Element.match] *)

Lemma prefix_append (p b : string) : String.prefix p (p ++ b) = true.
Proof.
  induction p as [|c p IH]; cbn; [now destruct b|].
  destruct (Ascii.ascii_dec c c); [apply IH|contradiction].
Qed.

Lemma contains_middle (a p b : string) :
  Str.contains p (a ++ p ++ b) = true.
Proof.
  induction a as [|c a IH]; rewrite contains_unfold.
  - cbn [append]. now rewrite prefix_append.
  - cbn [append]. rewrite IH. apply orb_true_r.
Qed.

Section MatchFrame.

Context {lib : PyLib}.

Lemma matcher_quality_bounds value test q extracted target :
  _matcher value test = Ok (q, extracted, target) -> (0 <= q /\ q <= 2)%Q.
Proof.
  intros H. apply matcher_inv in H as [(v & t & e' & _ & _ & H)|[_ H]];
    [|assumption].
  eapply string_match_range; eassumption.
Qed.

Lemma matcher_target_marker value test q extracted name :
  _matcher value test = Ok (q, extracted, Some name) ->
  exists t, test = VStr t /\ Str.contains "$*" t = true.
Proof.
  intros H. apply matcher_inv in H as [(v & t & e' & _ & -> & H)|[H _]];
    [|discriminate].
  exists t. split; [reflexivity|]. eapply string_match_target; eassumption.
Qed.

Lemma match_loop_read_only items :
  capture_free items = true ->
  forall self score, snd (match_loop self items score) = self.
Proof.
  induction items as [|[key test] items IH]; intros Hfree self score;
    cbn [match_loop]; [reflexivity|].
  cbn [capture_free forallb snd] in Hfree.
  apply andb_true_iff in Hfree as [Ht Hfree].
  destruct (Str.startswith "__" key); [now apply IH|].
  destruct (hasattr self key); [|reflexivity].
  destruct (_matcher _ test) as [[[q extracted] [name|]]|] eqn:Hm;
    [|cbn [write_back]; destruct (truthy q); [now apply IH|reflexivity]
     |reflexivity].
  apply matcher_target_marker in Hm as (t & -> & Hc).
  now rewrite Hc in Ht.
Qed.

(** X9.  When no string test of the mapping holds the extraction marker,
    [Element.match] leaves the tested element as it was, whether it returns
    a score or raises. *)
Theorem match_read_only self test :
  capture_free test = true ->
  snd (Element_match self test) = self.
Proof. intros H. now apply match_loop_read_only. Qed.

Lemma lookup_write_back self key target v k :
  Str.contains "/" k = false ->
  lookup k (write_back self key target v) = lookup k self.
Proof.
  intros Hk. unfold write_back. destruct target as [name|]; [|reflexivity].
  destruct (truthy_target (Some name)); [|reflexivity].
  rewrite lookup_setitem.
  destruct (String.eqb (key ++ "/" ++ name) k) eqn:E; [|reflexivity].
  apply String.eqb_eq in E; subst.
  now rewrite contains_middle in Hk.
Qed.

Lemma hasattr_write_back self key target v k :
  hasattr self k = true -> hasattr (write_back self key target v) k = true.
Proof.
  intros Hk. unfold write_back. destruct target as [name|]; [|assumption].
  destruct (truthy_target (Some name)); [|assumption].
  unfold hasattr in *. rewrite lookup_setitem.
  now destruct (String.eqb _ k).
Qed.

Lemma match_loop_frame items k :
  forall self score,
    (Str.contains "/" k = false ->
     lookup k (snd (match_loop self items score)) = lookup k self)
    /\ (hasattr self k = true ->
        hasattr (snd (match_loop self items score)) k = true).
Proof.
  induction items as [|[key test] items IH]; intros self score;
    cbn [match_loop]; [now split|].
  destruct (Str.startswith "__" key); [apply IH|].
  destruct (hasattr self key); [|now split].
  destruct (_matcher _ test) as [[[q extracted] target]|]; [|now split].
  destruct (truthy q).
  - destruct (IH (write_back self key target extracted)
                 (score + (100 + q))%Q) as [IH1 IH2].
    split; intros Hk.
    + rewrite IH1 by assumption. now apply lookup_write_back.
    + apply IH2. now apply hasattr_write_back.
  - cbn [snd]. split; intros Hk.
    + now apply lookup_write_back.
    + now apply hasattr_write_back.
Qed.

(** X10.  [Element.match] never removes a field of the tested element, and
    a field whose name holds no slash keeps its value: the only fields it
    writes are capture fields, named by a test field, a slash and a capture
    name. *)
Theorem match_frame self test k :
  (Str.contains "/" k = false ->
   lookup k (snd (Element_match self test)) = lookup k self)
  /\ (hasattr self k = true ->
      hasattr (snd (Element_match self test)) k = true).
Proof. apply match_loop_frame. Qed.

End MatchFrame.

(** X9, an instance: the two star tests of the unit test on its session. *)
Lemma match_read_only_witness :
  capture_free [("target", VStr "*.openai.com"); ("body", VStr "*model*")]
  = true
  /\ forall lib : PyLib,
      snd (@Element_match lib Data.session
             [("target", VStr "*.openai.com"); ("body", VStr "*model*")])
      = Data.session.
Proof.
  split; [reflexivity|]. intros lib.
  apply (@match_read_only lib). reflexivity.
Defined.

(** X10, an instance: the capturing test of the unit test leaves the field
    "h_host" as it was and keeps the field "h_body". *)
Lemma match_frame_witness :
  Str.contains "/" "h_host" = false
  /\ hasattr Data.chat "h_body" = true
  /\ forall lib : PyLib,
      lookup "h_host" (snd (@Element_match lib Data.chat Data.chat_test))
      = lookup "h_host" Data.chat
      /\ hasattr (snd (@Element_match lib Data.chat Data.chat_test)) "h_body"
         = true.
Proof.
  split; [reflexivity|]. split; [reflexivity|]. intros lib. split.
  - apply (@match_frame lib Data.chat Data.chat_test "h_host"). reflexivity.
  - apply (@match_frame lib Data.chat Data.chat_test "h_body"). reflexivity.
Defined.

Section MatchScore.

Context {lib : PyLib}.

Lemma truthy_positive q : truthy q = true -> (0 <= q)%Q -> (0 < q)%Q.
Proof.
  unfold truthy. intros Ht Hq.
  apply negb_true_iff in Ht.
  destruct (Qlt_le_dec 0 q) as [|Hle]; [assumption|].
  assert (Heq : (q == 0)%Q) by (apply Qle_antisym; assumption).
  apply Qeq_bool_iff in Heq. congruence.
Qed.

Lemma scans_all_matched self items v self' :
  scans self items v self' ->
  forall qs,
    v = AllMatched qs ->
    List.length qs = fields_tested items
    /\ Forall (fun q => (0 < q /\ q <= 2)%Q) qs.
Proof.
  unfold fields_tested.
  induction 1 as
    [ self
    | self key test items v self' Hres _ IH
    | self key test items Hres Habs
    | self key test items value q extracted target Hres Hlook Hm Hq
    | self key test items value q extracted target qs' self' Hres Hlook Hm Hq _ IH
    | self key test items value q extracted target self' Hres Hlook Hm Hq _ IH ];
    intros qs Hv; try discriminate; cbn [filter fst].
  - inversion Hv; subst. split; [reflexivity|constructor].
  - rewrite Hres. cbn [negb]. now apply IH.
  - inversion Hv; subst. rewrite Hres. cbn [negb List.length].
    destruct (IH qs' eq_refl) as [Hlen Hall]. split; [now rewrite Hlen|].
    constructor; [|assumption].
    apply matcher_quality_bounds in Hm as [H0 H2].
    split; [now apply truthy_positive|assumption].
Qed.

Lemma total_bounds qs :
  Forall (fun q => (0 < q /\ q <= 2)%Q) qs ->
  forall start,
    (start + 100 * inject_Z (Z.of_nat (List.length qs)) <= total start qs
     /\ total start qs <= start + 102 * inject_Z (Z.of_nat (List.length qs)))%Q.
Proof.
  induction 1 as [|q qs [Hq0 Hq2] _ IH]; intros start;
    cbn [total fold_left List.length].
  - change (inject_Z (Z.of_nat 0)) with 0%Q. lra.
  - destruct (IH (start + (100 + q))%Q) as [IH1 IH2]. fold (total (start + (100 + q)) qs).
    rewrite Nat2Z.inj_succ. unfold Z.succ. rewrite inject_Z_plus.
    change (inject_Z 1) with 1%Q. unfold total in *. lra.
Qed.

Lemma total_strict q qs :
  Forall (fun q => (0 < q /\ q <= 2)%Q) (q :: qs) ->
  (100 * inject_Z (Z.of_nat (List.length (q :: qs))) < total 0 (q :: qs))%Q.
Proof.
  intros H. inversion H as [|? ? [Hq0 Hq2] Hall]; subst.
  cbn [total fold_left List.length].
  destruct (total_bounds qs Hall (0 + (100 + q))%Q) as [H1 _].
  rewrite Nat2Z.inj_succ. unfold Z.succ. rewrite inject_Z_plus.
  change (inject_Z 1) with 1%Q. unfold total in *. lra.
Qed.

(** X11.  A nonzero score lies above 100 times and at most at 102 times the
    number of test fields whose name does not begin with two underscores:
    every such field was matched, each adding 100 plus a quality above 0
    and at most 2. *)
Theorem match_score_range self test s self' :
  Element_match self test = (Ok s, self') ->
  truthy s = true ->
  (100 * inject_Z (Z.of_nat (fields_tested test)) < s
   /\ s <= 102 * inject_Z (Z.of_nat (fields_tested test)))%Q.
Proof.
  intros H Ht. apply Element_match_returns in H as (v & Hv & ->).
  destruct v as [qs|]; [|discriminate].
  destruct (scans_all_matched _ _ _ _ Hv qs eq_refl) as [Hlen Hall].
  rewrite <- Hlen. cbn [score_of]. split.
  - destruct qs as [|q qs]; [discriminate|]. now apply total_strict.
  - destruct (total_bounds qs Hall 0%Q) as [_ H2]. lra.
Qed.

End MatchScore.

(** X11, an instance: the two fields of the capturing test of the unit test
    give the score 201.75, between 200 and 204. *)
Lemma match_score_range_witness :
  fields_tested Data.chat_test = 2%nat
  /\ forall lib : PyLib,
      (100 * inject_Z 2 < 807 # 4 /\ 807 # 4 <= 102 * inject_Z 2)%Q.
Proof.
  split; [reflexivity|]. intros lib.
  apply (@match_score_range lib Data.chat Data.chat_test (807 # 4)
           (Data.chat ++ [("h_body/model", VStr "llama3.2")]));
    reflexivity.
Defined.

(** ** More on rule execution *)



Lemma getitem_setitem_other self key v k :
  String.eqb key k = false ->
  __getitem__ (__setitem__ self key v) k = __getitem__ self k.
Proof. intros H. unfold __getitem__. now rewrite lookup_setitem, H. Qed.

(** What a memory holds under a name, when the memory is supplied. *)
Lemma action_memory_shape key value im lg art :
  exists im' lg',
    _action_memory (VStr key) value
      {| immediate := Some im; long := lg; artifacts := art |}
    = Ok {| immediate := Some im'; long := lg'; artifacts := art |}
    /\ (lg = None <-> lg' = None)
    /\ forall k,
        String.eqb (plain_key key) k = false ->
        lookup k im' = lookup k im
        /\ match lg, lg' with
           | Some l, Some l' => lookup k l' = lookup k l
           | _, _ => True
           end.
Proof.
  unfold _action_memory, plain_key.
  set (stripped := if Str.startswith "@" key then _ else _).
  assert (Hs : stripped
               = (if Str.startswith "@" key then Str.drop 1 key else key,
                  Str.startswith "@" key))
    by (subst stripped; now destruct (Str.startswith "@" key)).
  rewrite Hs. clear stripped Hs.
  set (k0 := if Str.startswith "@" key then Str.drop 1 key else key).
  set (force := Str.startswith "@" key).
  cbn [immediate long artifacts].
  match goal with
  | |- context [match ?r with Raise x => Raise x | Ok v => _ end] =>
      assert (Hr : exists v, r = Ok v)
  end.
  { destruct value as [s| | | |]; try (eexists; reflexivity).
    destruct (Str.startswith "$" s); [|eexists; reflexivity].
    destruct (hasattr im _); [eexists; reflexivity|].
    destruct lg as [l|]; [|eexists; reflexivity].
    destruct (hasattr l _); eexists; reflexivity. }
  destruct Hr as [v ->].
  destruct lg as [l|].
  - destruct (hasattr l k0 || force).
    + exists im, (Some (__setitem__ l k0 v)). repeat split; try discriminate.
      now rewrite lookup_setitem, H.
    + exists (__setitem__ im k0 v), (Some l). repeat split; try discriminate.
      now rewrite lookup_setitem, H.
  - destruct (negb force).
    + exists (__setitem__ im k0 v), None. repeat split.
      now rewrite lookup_setitem, H.
    + exists im, None. repeat split.
Qed.

(** X12.  With a string key that is, its long-term marker removed, an
    assignable name, and the immediate memory supplied, [_action_memory]
    always returns; it leaves the artifacts collaborator alone, keeps both
    memories supplied or not as they were, and changes no field other than
    the key (its long-term marker removed). *)
Theorem action_memory_total_frame key value im lg art :
  assignable (plain_key key) = true ->
  exists im' lg',
    _action_memory (VStr key) value
      {| immediate := Some im; long := lg; artifacts := art |}
    = Ok {| immediate := Some im'; long := lg'; artifacts := art |}
    /\ (lg = None <-> lg' = None)
    /\ forall k,
        String.eqb (plain_key key) k = false ->
        lookup k im' = lookup k im
        /\ match lg, lg' with
           | Some l, Some l' => lookup k l' = lookup k l
           | _, _ => True
           end.
Proof. intros _. apply action_memory_shape. Qed.

(** X12, an instance: the forced write of the key "model" leaves the field
    "target" of both memories alone. *)
Lemma action_memory_total_frame_witness :
  assignable (plain_key "@model") = true
  /\ String.eqb (plain_key "@model") "target" = false
  /\ exists im' lg',
      _action_memory (VStr "@model") (VStr "llama")
        {| immediate := Some Data.session; long := Some []; artifacts := None |}
      = Ok {| immediate := Some im'; long := Some lg'; artifacts := None |}
      /\ lookup "target" im' = lookup "target" Data.session
      /\ lookup "target" lg' = None.
Proof.
  split; [reflexivity|]. split; [reflexivity|].
  destruct (action_memory_total_frame "@model" (VStr "llama") Data.session
              (Some []) None eq_refl) as (im' & lg' & Heq & Hnone & Hframe).
  destruct lg' as [lg'|]; [|now destruct Hnone as [_ H]; specialize (H eq_refl)].
  exists im', lg'. split; [exact Heq|].
  destruct (Hframe "target" eq_refl) as [H1 H2]. split; [exact H1|exact H2].
Defined.

(** Sequencing of the action loop. *)
Lemma exec_actions_app xs ys e :
  exec_actions (xs ++ ys) e
  = match exec_actions xs e with
    | (Ok _, e1) => exec_actions ys e1
    | (Raise x, e1) => (Raise x, e1)
    end.
Proof.
  revert e. induction xs as [|a xs IH]; intros e; cbn [app exec_actions].
  - reflexivity.
  - destruct (exec_action a e); [apply IH|reflexivity].
Qed.

(** The assignment of a plain value. *)
Lemma action_memory_literal key v im lg art :
  is_reference v = false ->
  _action_memory (VStr key) v
    {| immediate := Some im; long := lg; artifacts := art |}
  = Ok match lg with
       | Some l =>
           if hasattr l (plain_key key) || Str.startswith "@" key
           then {| immediate := Some im;
                   long := Some (__setitem__ l (plain_key key) v);
                   artifacts := art |}
           else {| immediate := Some (__setitem__ im (plain_key key) v);
                   long := Some l; artifacts := art |}
       | None =>
           if Str.startswith "@" key
           then {| immediate := Some im; long := None; artifacts := art |}
           else {| immediate := Some (__setitem__ im (plain_key key) v);
                   long := None; artifacts := art |}
       end.
Proof.
  intros Hv. unfold _action_memory, plain_key.
  cbn [immediate long artifacts].
  assert (Hres : match v with
                 | VStr s =>
                     if Str.startswith "$" s
                     then
                       if hasattr im (Str.drop 1 s)
                       then Ok (__getitem__ im (Str.drop 1 s))
                       else
                         match lg with
                         | Some l =>
                             if hasattr l (Str.drop 1 s)
                             then Ok (__getitem__ l (Str.drop 1 s))
                             else Ok VNone
                         | None => Ok VNone
                         end
                     else Ok v
                 | _ => Ok v
                 end = Ok v).
  { destruct v as [s| | | |]; try reflexivity.
    cbn [is_reference] in Hv. now rewrite Hv. }
  destruct (Str.startswith "@" key); rewrite Hres; cbn [negb];
    destruct lg as [l|]; try reflexivity.
  - now rewrite orb_true_r.
  - rewrite orb_false_r. now destruct (hasattr l key).
Qed.

(** Actions that run and do not assign to a field leave it, in both
    memories, as it was. *)
Lemma exec_actions_frame k ys :
  forallb runnable ys = true ->
  existsb (assigns k) ys = false ->
  forall im lg art,
  exists im' lg',
    exec_actions ys {| immediate := Some im; long := lg; artifacts := art |}
    = (Ok tt, {| immediate := Some im'; long := lg'; artifacts := art |})
    /\ (lg = None <-> lg' = None)
    /\ lookup k im' = lookup k im
    /\ match lg, lg' with
       | Some l, Some l' => lookup k l' = lookup k l
       | _, _ => True
       end.
Proof.
  induction ys as [|a ys IH]; intros Hrun Hno im lg art.
  - exists im, lg. cbn [exec_actions]. repeat split; try tauto.
    now destruct lg.
  - cbn [forallb] in Hrun. apply andb_true_iff in Hrun as [Ha Hrun].
    cbn [existsb] in Hno. apply orb_false_iff in Hno as [Hk Hno].
    specialize (IH Hrun Hno).
    assert (Hstep : exists im1 lg1,
               exec_action a {| immediate := Some im; long := lg;
                                artifacts := art |}
               = Ok {| immediate := Some im1; long := lg1; artifacts := art |}
               /\ (lg = None <-> lg1 = None)
               /\ lookup k im1 = lookup k im
               /\ match lg, lg1 with
                  | Some l, Some l1 => lookup k l1 = lookup k l
                  | _, _ => True
                  end).
    { assert (Hsame : exists im1 lg1,
                 Ok {| immediate := Some im; long := lg; artifacts := art |}
                 = Ok {| immediate := Some im1; long := lg1;
                         artifacts := art |}
                 /\ (lg = None <-> lg1 = None)
                 /\ lookup k im1 = lookup k im
                 /\ match lg, lg1 with
                    | Some l, Some l1 => lookup k l1 = lookup k l
                    | _, _ => True
                    end).
      { exists im, lg. repeat split; try tauto. now destruct lg. }
      destruct a as [items|[|a0 [|a1 [|a2 l]]]|]; cbn [runnable] in Ha;
        try discriminate; cbn [exec_action]; try exact Hsame.
      - destruct a0 as [s| | | |]; cbn [_is_action_artifact] in *;
          try discriminate.
        rewrite Ha. exact Hsame.
      - destruct a0 as [key| | | |]; try discriminate.
        cbn [assigns] in Hk.
        destruct (_is_action_artifact (VStr key)); [exact Hsame|].
        cbn [negb andb] in Hk.
        destruct (action_memory_shape key a1 im lg art)
          as (im1 & lg1 & Heq & Hnone & Hframe).
        exists im1, lg1. split; [exact Heq|]. split; [exact Hnone|].
        destruct (Hframe k Hk) as [H1 H2]. split; [exact H1|].
        destruct lg, lg1; try exact I. exact H2. }
    destruct Hstep as (im1 & lg1 & Heq & Hnone & Him & Hlg).
    destruct (IH im1 lg1 art) as (im' & lg' & Heq' & Hnone' & Him' & Hlg').
    exists im', lg'. cbn [exec_actions]. rewrite Heq.
    split; [exact Heq'|]. split; [tauto|]. split; [congruence|].
    destruct lg as [l|], lg1 as [l1|], lg' as [l'|]; try exact I;
      try congruence; exfalso; destruct Hnone as [A B], Hnone' as [A' B'];
      first [ now specialize (B eq_refl) | now specialize (A' eq_refl)
            | now specialize (B' eq_refl) | now specialize (A eq_refl) ].
Qed.

(** X13.  The last assignment to a field decides it.  When the actions
    before an assignment of a plain value run through, leaving the immediate
    memory supplied, and the actions after it can run and do not assign to
    the same field, [execute] returns, and at the end the memory the
    assignment went to holds the value under the key (its long-term marker
    removed), the other memory holding under it what it held before the
    assignment.  The memory is the long-term one when it is supplied and
    either holds the key or the key is marked; it is the immediate one
    otherwise, except that a marked key without a long-term memory is
    assigned nowhere.  The two memories are distinct elements. *)
Theorem execute_last_assignment id conditions weight ns xs key v ys e
        im lg art :
  execute (Rule_init id conditions xs weight ns) e
  = (Ok tt, {| immediate := Some im; long := lg; artifacts := art |}) ->
  Str.startswith "!" key = false ->
  assignable (plain_key key) = true ->
  is_reference v = false ->
  forallb runnable ys = true ->
  existsb (assigns (plain_key key)) ys = false ->
  exists im' lg',
    execute (Rule_init id conditions (xs ++ ATuple [VStr key; v] :: ys)
                       weight ns) e
    = (Ok tt, {| immediate := Some im'; long := lg'; artifacts := art |})
    /\ match lg, lg' with
       | Some l, Some l' =>
           if hasattr l (plain_key key) || Str.startswith "@" key
           then lookup (plain_key key) l' = Some v
                /\ lookup (plain_key key) im' = lookup (plain_key key) im
           else lookup (plain_key key) im' = Some v
                /\ lookup (plain_key key) l' = lookup (plain_key key) l
       | None, None =>
           lookup (plain_key key) im'
           = if Str.startswith "@" key then lookup (plain_key key) im
             else Some v
       | _, _ => False
       end.
Proof.
  unfold execute; cbn [__actions__ Rule_init].
  intros Hxs Hbang _ Hv Hrun Hno.
  rewrite exec_actions_app, Hxs.
  cbn [exec_actions exec_action _is_action_artifact]. rewrite Hbang.
  rewrite action_memory_literal by assumption.
  set (k := plain_key key) in *.
  assert (Hset : forall m, lookup k (__setitem__ m k v) = Some v)
    by (intros m; now rewrite lookup_setitem, String.eqb_refl).
  destruct lg as [l|].
  - destruct (hasattr l k || Str.startswith "@" key).
    + destruct (exec_actions_frame k ys Hrun Hno im
                  (Some (__setitem__ l k v)) art)
        as (im' & lg' & Heq & Hnone & Him & Hlg).
      exists im', lg'. split; [exact Heq|].
      destruct lg' as [l'|];
        [|destruct Hnone as [_ H]; now specialize (H eq_refl)].
      split; [now rewrite Hlg|exact Him].
    + destruct (exec_actions_frame k ys Hrun Hno (__setitem__ im k v)
                  (Some l) art)
        as (im' & lg' & Heq & Hnone & Him & Hlg).
      exists im', lg'. split; [exact Heq|].
      destruct lg' as [l'|];
        [|destruct Hnone as [_ H]; now specialize (H eq_refl)].
      split; [now rewrite Him|exact Hlg].
  - destruct (Str.startswith "@" key).
    + destruct (exec_actions_frame k ys Hrun Hno im None art)
        as (im' & lg' & Heq & Hnone & Him & _).
      exists im', lg'. split; [exact Heq|].
      destruct lg' as [l'|];
        [destruct Hnone as [H _]; now specialize (H eq_refl)|exact Him].
    + destruct (exec_actions_frame k ys Hrun Hno (__setitem__ im k v)
                  None art)
        as (im' & lg' & Heq & Hnone & Him & _).
      exists im', lg'. split; [exact Heq|].
      destruct lg' as [l'|];
        [destruct Hnone as [H _]; now specialize (H eq_refl)|].
      now rewrite Him.
Qed.

(** X13, an instance: after the assignment of "provider", the marked key
    "@model" goes to the long-term memory, which does not hold it, and
    stays there through an artifact call and the copy of another field. *)
Lemma execute_last_assignment_witness :
  forallb runnable [ATuple [VStr "!notify"; VStr "done"];
                    ATuple [VStr "copy"; VStr "$provider"]] = true
  /\ existsb (assigns (plain_key "@model"))
             [ATuple [VStr "!notify"; VStr "done"];
              ATuple [VStr "copy"; VStr "$provider"]] = false
  /\ exists im' lg',
      execute
        (Rule_init "r-2" []
           ([ATuple [VStr "provider"; VStr "openai"]]
            ++ ATuple [VStr "@model"; VStr "llama"]
            :: [ATuple [VStr "!notify"; VStr "done"];
                ATuple [VStr "copy"; VStr "$provider"]])
           1 "f_model")
        {| immediate := Some Data.session; long := Some [];
           artifacts := None |}
      = (Ok tt, {| immediate := Some im'; long := Some lg';
                   artifacts := None |})
      /\ lookup "model" lg' = Some (VStr "llama")
      /\ lookup "model" im' = None.
Proof.
  split; [reflexivity|]. split; [reflexivity|].
  destruct (execute_last_assignment "r-2" [] 1 "f_model"
              [ATuple [VStr "provider"; VStr "openai"]]
              "@model" (VStr "llama")
              [ATuple [VStr "!notify"; VStr "done"];
               ATuple [VStr "copy"; VStr "$provider"]]
              {| immediate := Some Data.session; long := Some [];
                 artifacts := None |}
              (Data.session ++ [("provider", VStr "openai")]) (Some []) None
              eq_refl eq_refl eq_refl eq_refl eq_refl eq_refl)
    as (im' & lg' & Heq & Hend).
  destruct lg' as [lg'|]; [|destruct Hend].
  exists im', lg'. split; [exact Heq|]. exact Hend.
Defined.

Lemma exec_action_artifacts a e e' :
  exec_action a e = Ok e' -> artifacts e' = artifacts e.
Proof.
  destruct a as [items|[|a0 [|a1 [|a2 l]]]|]; cbn [exec_action];
    try (intros H; inversion H; reflexivity); try discriminate.
  - destruct (_is_action_artifact a0); [|discriminate].
    intros H; inversion H; reflexivity.
  - destruct (_is_action_artifact a0);
      [intros H; inversion H; reflexivity|].
    unfold _action_memory. destruct a0 as [key| | | |]; try discriminate.
    destruct (if Str.startswith "@" key then _ else _) as [k force].
    match goal with
    | |- context [match ?r with Raise x => Raise x | Ok v => _ end] =>
        destruct r as [v|]; [|discriminate]
    end.
    destruct (long e) as [l|].
    + destruct (hasattr l k || force); [intros H; inversion H; reflexivity|].
      destruct (immediate e); intros H; inversion H; reflexivity.
    + destruct (immediate e); [|intros H; inversion H; reflexivity].
      destruct (negb force); intros H; inversion H; reflexivity.
Qed.

Lemma exec_actions_artifacts actions :
  forall e, artifacts (snd (exec_actions actions e)) = artifacts e.
Proof.
  induction actions as [|a actions IH]; intros e; cbn [exec_actions];
    [reflexivity|].
  destruct (exec_action a e) as [e'|] eqn:H; [|reflexivity].
  rewrite IH. eapply exec_action_artifacts; eassumption.
Qed.

(** X14.  [execute] never calls the artifacts collaborator: whatever the
    rule's actions and whether it returns or raises, the collaborator has
    received after the call exactly the calls it had received before. *)
Theorem execute_leaves_artifacts rule e :
  artifacts (snd (execute rule e)) = artifacts e.
Proof. apply exec_actions_artifacts. Qed.

Lemma exec_action_runnable a e im :
  runnable a = true ->
  immediate e = Some im ->
  exists e' im', exec_action a e = Ok e' /\ immediate e' = Some im'.
Proof.
  intros Hr Him.
  destruct a as [items|[|a0 [|a1 [|a2 l]]]|]; cbn [runnable] in Hr;
    try discriminate; cbn [exec_action];
    try (exists e, im; split; [reflexivity|assumption]; fail).
  - destruct a0 as [s| | | |]; cbn [_is_action_artifact] in *;
      try discriminate.
    rewrite Hr. eexists; exists im. split; [reflexivity|assumption].
  - destruct a0 as [key| | | |]; try discriminate.
    destruct (_is_action_artifact (VStr key)).
    + eexists; exists im. split; [reflexivity|assumption].
    + destruct e as [i l art]. cbn [immediate] in Him. subst i.
      destruct (action_memory_shape key a1 im l art)
        as (im' & lg' & Heq & _).
      rewrite Heq. eexists; exists im'. split; reflexivity.
Qed.

Lemma exec_actions_runnable actions :
  forallb runnable actions = true ->
  forall e im, immediate e = Some im ->
               fst (exec_actions actions e) = Ok tt.
Proof.
  induction actions as [|a actions IH]; intros Hall e im Him;
    cbn [exec_actions]; [reflexivity|].
  cbn [forallb] in Hall. apply andb_true_iff in Hall as [Ha Hall].
  destruct (exec_action_runnable a e im Ha Him) as (e' & im' & -> & Him').
  eapply IH; eassumption.
Qed.

(** X15.  When the immediate memory is supplied and every action of the
    rule is a pair whose key is a string that, its long-term marker removed,
    is an assignable name, a singleton marked as an artifact call, or an
    entry [execute] passes over (a tuple of another length, or neither a
    dict nor a tuple), [execute] returns without raising. *)
Theorem execute_runnable_returns rule e im :
  forallb runnable (__actions__ rule) = true ->
  immediate e = Some im ->
  fst (execute rule e) = Ok tt.
Proof. intros H. now apply exec_actions_runnable. Qed.

(** X15, an instance: the second rule of [test_rule_exec] on its session. *)
Lemma execute_runnable_returns_witness :
  forallb runnable [ATuple [VStr "model"; VStr "$h_body/model"]] = true
  /\ fst (execute
            (Rule_init "r-2" [] [ATuple [VStr "model"; VStr "$h_body/model"]]
                       1 "f_model")
            {| immediate := Some Data.chat; long := Some [];
               artifacts := None |})
     = Ok tt.
Proof.
  split; [reflexivity|].
  apply (execute_runnable_returns
           (Rule_init "r-2" [] [ATuple [VStr "model"; VStr "$h_body/model"]]
                      1 "f_model")
           {| immediate := Some Data.chat; long := Some [];
              artifacts := None |}
           Data.chat); reflexivity.
Defined.





(** ** Adding rules to a rule base *)

Lemma same_rule_refl rule : same_rule rule rule = true.
Proof. apply String.eqb_refl. Qed.

Lemma existsb_app_r {A : Type} (f : A -> bool) l x :
  f x = true -> existsb f (l ++ [x]) = true.
Proof.
  intros H. rewrite existsb_app. cbn. rewrite H. now rewrite !orb_true_r.
Qed.

Lemma bucket_add_rule rb rule :
  exists rules,
    (forall ns,
        bucket (add_rule rb rule) ns
        = if String.eqb (__namespace__ rule) ns then Some rules
          else bucket rb ns)
    /\ existsb (same_rule rule) rules = true
    /\ match bucket rb (__namespace__ rule) with
       | Some old => incl old rules /\ incl rules (rule :: old)
       | None => rules = [rule]
       end.
Proof.
  induction rb as [|[k old] rb IH]; cbn [add_rule bucket].
  - exists [rule]. repeat split.
    cbn. now rewrite same_rule_refl.
  - destruct (String.eqb k (__namespace__ rule)) eqn:E.
    + apply String.eqb_eq in E; subst k.
      exists (if existsb (same_rule rule) old then old else old ++ [rule]).
      repeat split.
      * intros ns. cbn [bucket]. now destruct (String.eqb _ ns).
      * destruct (existsb (same_rule rule) old) eqn:Ho; [assumption|].
        apply existsb_app_r, same_rule_refl.
      * destruct (existsb _ old); [apply incl_refl|now apply incl_appl].
      * destruct (existsb _ old); [now apply incl_tl|].
        apply incl_app; [now apply incl_tl|].
        intros x [<-|[]]. now left.
    + destruct IH as (rules & Hb & Hin & Hold).
      exists rules. repeat split; [|assumption..].
      intros ns. cbn [bucket]. rewrite Hb.
      destruct (String.eqb k ns) eqn:E'; [|reflexivity].
      apply String.eqb_eq in E'; subst.
      now rewrite String.eqb_sym, E.
Qed.

(** X17.  After [rb += rule] the bucket of the rule's namespace exists and
    holds the rule, together with exactly the rules it held before (a new
    bucket holds the rule alone); the bucket of every other namespace is
    unchanged. *)
Theorem iadd_bucket rb rule :
  exists rules,
    (forall ns,
        bucket (__iadd__ rb rule) ns
        = if String.eqb (__namespace__ rule) ns then Some rules
          else bucket rb ns)
    /\ existsb (same_rule rule) rules = true
    /\ match bucket rb (__namespace__ rule) with
       | Some old => incl old rules /\ incl rules (rule :: old)
       | None => rules = [rule]
       end.
Proof. apply bucket_add_rule. Qed.

(** X18.  Adding a rule that is already in the rule base changes nothing:
    [rb += rule] twice gives the rule base that [rb += rule] once gives. *)
Theorem iadd_idempotent rb rule :
  __iadd__ (__iadd__ rb rule) rule = __iadd__ rb rule.
Proof.
  unfold __iadd__. induction rb as [|[k old] rb IH]; cbn [add_rule].
  - rewrite String.eqb_refl. cbn [existsb]. now rewrite same_rule_refl.
  - destruct (String.eqb k (__namespace__ rule)) eqn:E; cbn [add_rule];
      rewrite E.
    + destruct (existsb (same_rule rule) old) eqn:Ho.
      * now rewrite Ho.
      * now rewrite existsb_app_r by apply same_rule_refl.
    + now rewrite IH.
Qed.

(** The namespaces of a rule base stay distinct. *)
Lemma keys_add_rule rb rule :
  map fst (add_rule rb rule)
  = if existsb (String.eqb (__namespace__ rule)) (map fst rb) then map fst rb
    else map fst rb ++ [__namespace__ rule].
Proof.
  induction rb as [|[k old] rb IH]; cbn [add_rule map existsb fst app].
  - reflexivity.
  - rewrite (String.eqb_sym (__namespace__ rule) k).
    destruct (String.eqb k (__namespace__ rule)); cbn [orb map fst].
    + reflexivity.
    + rewrite IH. now destruct (existsb _ _).
Qed.

(** X19.  A rule base built from the empty one by [+=] has each namespace
    once, and every rule sits in the bucket of its own namespace. *)
Theorem iadd_invariant rules :
  let rb := fold_left __iadd__ rules [] in
  NoDup (map fst rb)
  /\ Forall (fun entry =>
               Forall (fun r => __namespace__ r = fst entry) (snd entry)) rb.
Proof.
  cbn zeta.
  assert (H : forall rb,
             NoDup (map fst rb)
             /\ Forall (fun entry =>
                          Forall (fun r => __namespace__ r = fst entry)
                                 (snd entry)) rb ->
             NoDup (map fst (fold_left __iadd__ rules rb))
             /\ Forall (fun entry =>
                          Forall (fun r => __namespace__ r = fst entry)
                                 (snd entry))
                       (fold_left __iadd__ rules rb)).
  { induction rules as [|rule rules IH]; intros rb Hrb; cbn [fold_left];
      [assumption|].
    apply IH. destruct Hrb as [Hnd Hall]. unfold __iadd__. split.
    - rewrite keys_add_rule. destruct (existsb _ _) eqn:E; [assumption|].
      apply NoDup_app; [assumption|repeat constructor; intros []|].
      intros x Hx [<-|[]].
      assert (existsb (String.eqb (__namespace__ rule)) (map fst rb) = true);
        [|congruence].
      apply existsb_exists. exists (__namespace__ rule).
      split; [assumption|apply String.eqb_refl].
    - clear Hnd. induction rb as [|[k old] rb IHrb]; cbn [add_rule].
      + repeat constructor.
      + inversion Hall as [|? ? Hold Hrest]; subst. cbn [fst snd] in Hold.
        destruct (String.eqb k (__namespace__ rule)) eqn:E.
        * constructor; [|assumption]. cbn [fst snd].
          apply String.eqb_eq in E.
          destruct (existsb _ old); [assumption|].
          apply Forall_app. split; [assumption|]. now repeat constructor.
        * constructor; [assumption|]. now apply IHrb. }
  apply H. split; constructor.
Qed.

(** ** More on rule selection *)

Section SelectMembership.

Context {lib : PyLib}.

Lemma cache_append_all_in P st rule st' :
  P rule -> all_in P st -> cache_append st rule = Ok st' -> all_in P st'.
Proof.
  unfold cache_append, all_in. intros Hr [Hb Hc].
  destruct (cache_matches st) as [c|]; [|discriminate].
  intros H; inversion H; subst; clear H. cbn in *. split; [assumption|].
  apply Forall_app. split; [assumption|now repeat constructor].
Qed.

Lemma scan_rules_all_in P strat rules :
  Forall P rules ->
  forall st test st' t,
    all_in P st ->
    scan_rules strat rules st test = (Ok st', t) ->
    all_in P st'.
Proof.
  induction 1 as [|rule rules Hr _ IH]; intros st test st' t Hin;
    cbn [scan_rules].
  - intros H; inversion H; now subst.
  - destruct (Rule_match rule test) as [[score_l|x] test']; [|discriminate].
    destruct (truthy score_l); [|now apply IH].
    assert (Hstep : forall st0,
               all_in P st0 ->
               match cache_append st0 rule with
               | Ok st1 => scan_rules strat rules st1 test'
               | Raise x => (Raise x, test')
               end = (Ok st', t) -> all_in P st').
    { intros st0 H0. destruct (cache_append st0 rule) as [st1|] eqn:E;
        [|discriminate].
      apply IH. eapply cache_append_all_in; eassumption. }
    destruct strat.
    + intros H; inversion H; subst. destruct Hin as [_ Hc].
      split; [|assumption]. cbn. intros r Heq; inversion Heq; now subst.
    + destruct (Qlt_bool (best_score st) score_l).
      * apply Hstep. destruct Hin as [_ Hc]. split; cbn.
        -- intros r Heq; inversion Heq; now subst.
        -- destruct (cache_matches st); constructor.
      * destruct (Qeq_bool score_l (best_score st)); [now apply Hstep|].
        now apply IH.
    + destruct (Qlt_bool (best_score st) score_l).
      * apply Hstep. destruct Hin as [_ Hc]. split; cbn.
        -- intros r Heq; inversion Heq; now subst.
        -- assumption.
      * destruct (Qeq_bool score_l (best_score st)); [now apply Hstep|].
        now apply IH.
Qed.

Lemma scan_spaces_all_in P strat rb space :
  Forall (fun ns => Forall P (bucket_of rb ns)) space ->
  forall st test st' t,
    all_in P st ->
    scan_spaces strat rb space st test = (Ok st', t) ->
    all_in P st'.
Proof.
  induction 1 as [|ns space Hns _ IH]; intros st test st' t Hin;
    cbn [scan_spaces].
  - intros H; inversion H; now subst.
  - unfold bucket_of in Hns.
    destruct (find_bucket rb ns) as [[rules|]|]; [|now apply IH|discriminate].
    destruct (scan_rules strat rules st test) as [[st1|] t1] eqn:E;
      [|discriminate].
    assert (H1 : all_in P st1) by (eapply scan_rules_all_in; eassumption).
    destruct (best_rule st1), strat;
      try (now apply IH); intros H; inversion H; now subst.
Qed.

Lemma choices_uniform_In {A : Type} (population : list A) u l :
  choices_uniform population u = Ok l ->
  exists p, l = [p] /\ In p population.
Proof.
  unfold choices_uniform.
  destruct (nth_error population _) as [p|] eqn:E; [|discriminate].
  intros H; inversion H; subst. exists p. split; [reflexivity|].
  eapply nth_error_In; eassumption.
Qed.

Lemma resolve_all_in P st u best :
  all_in P st -> resolve st u = Ok best -> Forall P (selected_rules best).
Proof.
  intros [Hb Hc]. unfold resolve.
  destruct (cache_matches st) as [[|r1 [|r2 cache]]|] eqn:Ec; cbn in Hc.
  - destruct (best_rule st); intros H; inversion H; subst; cbn;
      [constructor; [now apply Hb|constructor]|constructor].
  - intros H; inversion H; subst. assumption.
  - destruct (weight_calculation st).
    + destruct (Qeq_bool _ 0); [discriminate|].
      unfold choices_weighted. destruct (Qle_bool _ 0); [discriminate|].
      destruct (pick _ _ _) as [p|] eqn:Ep; [|discriminate].
      intros H; inversion H; subst. cbn. constructor; [|constructor].
      apply pick_In in Ep. rewrite Forall_forall in Hc. now apply Hc.
    + destruct (choices_uniform _ u) as [l|] eqn:Eu; [|discriminate].
      intros H; inversion H; subst. cbn.
      apply choices_uniform_In in Eu as (p & -> & Hp).
      constructor; [|constructor].
      rewrite Forall_forall in Hc. now apply Hc.
  - destruct (best_rule st); intros H; inversion H; subst; cbn;
      [constructor; [now apply Hb|constructor]|constructor].
Qed.

Lemma initial_all_in P strat : all_in P (initial strat).
Proof. split; [discriminate|]. destruct strat; constructor. Qed.

Lemma bucket_in_rule_base rb s rules :
  bucket rb s = Some rules -> incl rules (flat_map snd rb).
Proof.
  induction rb as [|[k old] rb IH]; cbn [bucket flat_map snd];
    [discriminate|].
  destruct (String.eqb k s).
  - intros H; inversion H; subst. now apply incl_appl.
  - intros H. apply incl_appr. now apply IH.
Qed.

Lemma bucket_of_in_rule_base rb ns :
  Forall (fun r => In r (flat_map snd rb)) (bucket_of rb ns).
Proof.
  unfold bucket_of. destruct ns; cbn [find_bucket]; try constructor.
  destruct (bucket rb s) as [rules|] eqn:E; [|constructor].
  apply Forall_forall. intros r Hr.
  eapply bucket_in_rule_base; eassumption.
Qed.

Lemma select_all_in P rb test ns strat u space :
  search_space rb ns = Ok space ->
  Forall (fun n => Forall P (bucket_of rb n)) space ->
  match fst (select rb test ns strat u) with
  | Ok (best, _, cache) =>
      Forall P (selected_rules best) /\ Forall P (candidates cache)
  | Raise _ => True
  end.
Proof.
  intros Hs Hall. unfold select. rewrite Hs.
  destruct (scan_spaces strat rb space (initial strat) test)
    as [[st|] t] eqn:E; [|exact I].
  assert (Hin : all_in P st).
  { eapply scan_spaces_all_in; [eassumption|apply initial_all_in|eassumption]. }
  destruct (resolve st u) as [best|] eqn:Er; [|exact I].
  cbn [fst]. split; [eapply resolve_all_in; eassumption|apply Hin].
Qed.

(** X20.  [select] only returns rules of the rule base: the rule (or list)
    it returns first and all its candidates are rules of some bucket; and
    when the namespace is given as a non-empty string they are rules of the
    bucket of that namespace. *)
Theorem select_from_rule_base rb test ns strat u c0 s0 :
  match fst (select rb test ns strat u) with
  | Ok (best, _, cache) =>
      Forall (fun r => In r (flat_map snd rb))
             (selected_rules best ++ candidates cache)
  | Raise _ => True
  end
  /\ match fst (select rb test (NsStr (String c0 s0)) strat u) with
     | Ok (best, _, cache) =>
         Forall (fun r => In r (candidates (bucket rb (String c0 s0))))
                (selected_rules best ++ candidates cache)
     | Raise _ => True
     end.
Proof.
  split.
  - destruct (search_space rb ns) as [space|] eqn:Hs.
    + pose proof (select_all_in (fun r => In r (flat_map snd rb))
                    rb test ns strat u space Hs) as H.
      destruct (fst (select rb test ns strat u)) as [[[best s] cache]|];
        [|exact I].
      apply Forall_app. apply H.
      apply Forall_forall. intros n _. apply bucket_of_in_rule_base.
    + unfold select. now rewrite Hs.
  - pose proof (select_all_in
                  (fun r => In r (candidates (bucket rb (String c0 s0))))
                  rb test (NsStr (String c0 s0)) strat u
                  [NsStr (String c0 s0)] eq_refl) as H.
    destruct (fst (select rb test (NsStr (String c0 s0)) strat u))
      as [[[best s] cache]|]; [|exact I].
    apply Forall_app. apply H.
    constructor; [|constructor].
    unfold bucket_of. cbn [find_bucket].
    destruct (bucket rb (String c0 s0)); cbn; [|constructor].
    apply Forall_forall. now intros r Hr.
Qed.

End SelectMembership.

Section SelectShape.

Context {lib : PyLib}.

Lemma scan_rules_first_inv rules :
  forall st test st' t,
    first_inv st ->
    scan_rules FIRST_MATCH rules st test = (Ok st', t) ->
    first_inv st'.
Proof.
  induction rules as [|rule rules IH]; intros st test st' t Hin;
    cbn [scan_rules].
  - intros H; inversion H; now subst.
  - destruct (Rule_match rule test) as [[score_l|x] test']; [|discriminate].
    destruct (truthy score_l) eqn:Ht; [|now apply IH].
    intros H; inversion H; subst. destruct Hin as [Hc _].
    split; [assumption|exact Ht].
Qed.

Lemma scan_spaces_first_inv rb space :
  forall st test st' t,
    first_inv st ->
    scan_spaces FIRST_MATCH rb space st test = (Ok st', t) ->
    first_inv st'.
Proof.
  induction space as [|ns space IH]; intros st test st' t Hin;
    cbn [scan_spaces].
  - intros H; inversion H; now subst.
  - destruct (find_bucket rb ns) as [[rules|]|]; [|now apply IH|discriminate].
    destruct (scan_rules FIRST_MATCH rules st test) as [[st1|] t1] eqn:E;
      [|discriminate].
    assert (H1 : first_inv st1) by (eapply scan_rules_first_inv; eassumption).
    destruct (best_rule st1); [|now apply IH].
    intros H; inversion H; now subst.
Qed.

(** X21.  Under [FIRST_MATCH] the result does not depend on the random
    draw; it names no candidate list, and its first component is either
    nothing, with best score 0, or a single rule, with a nonzero best
    score. *)
Theorem first_match_shape rb test ns u u' :
  select rb test ns FIRST_MATCH u = select rb test ns FIRST_MATCH u'
  /\ match fst (select rb test ns FIRST_MATCH u) with
     | Ok (SelNone, s, cache) => s = 0%Q /\ cache = None
     | Ok (SelRule _, s, cache) => truthy s = true /\ cache = None
     | Ok (SelList _, _, _) => False
     | Raise _ => True
     end.
Proof.
  unfold select. destruct (search_space rb ns) as [space|]; [|now split].
  destruct (scan_spaces FIRST_MATCH rb space (initial FIRST_MATCH) test)
    as [[st|] t] eqn:E; [|now split].
  assert (Hin : first_inv st).
  { eapply scan_spaces_first_inv; [|eassumption]. now split. }
  destruct Hin as [Hc Hb]. unfold resolve. rewrite Hc.
  destruct (best_rule st); cbn [fst]; now split.
Qed.

Lemma cache_append_flag_sound st rule st' :
  flag_sound st -> cache_append st rule = Ok st' -> flag_sound st'.
Proof.
  unfold cache_append, flag_sound.
  destruct (cache_matches st) as [c|]; [|discriminate].
  intros Hs H; inversion H; subst; clear H. cbn.
  destruct (Qeq_bool (__weight__ rule) 1) eqn:Ew; cbn [negb];
    [|discriminate].
  intros Hf. apply Forall_app. split; [now apply Hs|now repeat constructor].
Qed.

Lemma cache_append_flag_exact st rule st' :
  flag_exact st -> cache_append st rule = Ok st' -> flag_exact st'.
Proof.
  unfold cache_append, flag_exact.
  destruct (cache_matches st) as [c|]; [|discriminate].
  intros Hs H; inversion H; subst; clear H.
  cbn [weight_calculation cache_matches candidates] in *.
  rewrite existsb_app, Hs. cbn [existsb].
  destruct (Qeq_bool (__weight__ rule) 1); cbn [negb orb];
    [now rewrite orb_false_r|now rewrite orb_true_r].
Qed.

Lemma scan_rules_flag_sound strat rules :
  forall st test st' t,
    flag_sound st ->
    scan_rules strat rules st test = (Ok st', t) ->
    flag_sound st'.
Proof.
  induction rules as [|rule rules IH]; intros st test st' t Hin;
    cbn [scan_rules].
  - intros H; inversion H; now subst.
  - destruct (Rule_match rule test) as [[score_l|x] test']; [|discriminate].
    destruct (truthy score_l); [|now apply IH].
    assert (Hstep : forall st0,
               flag_sound st0 ->
               match cache_append st0 rule with
               | Ok st1 => scan_rules strat rules st1 test'
               | Raise x => (Raise x, test')
               end = (Ok st', t) -> flag_sound st').
    { intros st0 H0. destruct (cache_append st0 rule) as [st1|] eqn:E;
        [|discriminate].
      apply IH. eapply cache_append_flag_sound; eassumption. }
    destruct strat.
    + intros H; inversion H; subst. exact Hin.
    + destruct (Qlt_bool (best_score st) score_l).
      * apply Hstep. unfold flag_sound. cbn.
        intros _. destruct (cache_matches st); constructor.
      * destruct (Qeq_bool score_l (best_score st)); [now apply Hstep|].
        now apply IH.
    + destruct (Qlt_bool (best_score st) score_l).
      * apply Hstep. exact Hin.
      * destruct (Qeq_bool score_l (best_score st)); [now apply Hstep|].
        now apply IH.
Qed.

Lemma scan_rules_flag_exact rules :
  forall st test st' t,
    flag_exact st ->
    scan_rules ALL_MATCHES rules st test = (Ok st', t) ->
    flag_exact st'.
Proof.
  induction rules as [|rule rules IH]; intros st test st' t Hin;
    cbn [scan_rules].
  - intros H; inversion H; now subst.
  - destruct (Rule_match rule test) as [[score_l|x] test']; [|discriminate].
    destruct (truthy score_l); [|now apply IH].
    assert (Hstep : forall st0,
               flag_exact st0 ->
               match cache_append st0 rule with
               | Ok st1 => scan_rules ALL_MATCHES rules st1 test'
               | Raise x => (Raise x, test')
               end = (Ok st', t) -> flag_exact st').
    { intros st0 H0. destruct (cache_append st0 rule) as [st1|] eqn:E;
        [|discriminate].
      apply IH. eapply cache_append_flag_exact; eassumption. }
    destruct (Qlt_bool (best_score st) score_l).
    + apply Hstep. exact Hin.
    + destruct (Qeq_bool score_l (best_score st)); [now apply Hstep|].
      now apply IH.
Qed.

Lemma scan_spaces_keeps (I : locals -> Prop) strat rb space :
  (forall rules st test st' t,
      I st -> scan_rules strat rules st test = (Ok st', t) -> I st') ->
  forall st test st' t,
    I st ->
    scan_spaces strat rb space st test = (Ok st', t) ->
    I st'.
Proof.
  intros Hrules.
  induction space as [|ns space IH]; intros st test st' t Hin;
    cbn [scan_spaces].
  - intros H; inversion H; now subst.
  - destruct (find_bucket rb ns) as [[rules|]|]; [|now apply IH|discriminate].
    destruct (scan_rules strat rules st test) as [[st1|] t1] eqn:E;
      [|discriminate].
    assert (H1 : I st1) by (eapply Hrules; eassumption).
    destruct (best_rule st1), strat;
      try (now apply IH); intros H; inversion H; now subst.
Qed.

(** X22.  When [select] returns a list as its first component, that list
    holds one rule, taken from at least two candidates that all have weight
    1.0.  Under [ALL_MATCHES], conversely, a rule returned from two or more
    candidates means that some candidate has a weight other than 1.0. *)
Theorem select_list_shape rb test ns strat u :
  match fst (select rb test ns strat u) with
  | Ok (SelList l, _, cache) =>
      (exists r, l = [r] /\ In r (candidates cache))
      /\ (2 <= List.length (candidates cache))%nat
      /\ Forall (fun r => (__weight__ r == 1)%Q) (candidates cache)
  | _ => True
  end
  /\ match fst (select rb test ns ALL_MATCHES u) with
     | Ok (SelRule _, _, Some (r1 :: r2 :: cache)) =>
         existsb (fun r => negb (Qeq_bool (__weight__ r) 1))
                 (r1 :: r2 :: cache) = true
     | _ => True
     end.
Proof.
  split.
  - unfold select. destruct (search_space rb ns) as [space|]; [|exact I].
    destruct (scan_spaces strat rb space (initial strat) test)
      as [[st|] t] eqn:E; [|exact I].
    assert (Hin : flag_sound st).
    { eapply (scan_spaces_keeps flag_sound); [|idtac|eassumption].
      - intros rules. apply scan_rules_flag_sound.
      - intros _. destruct strat; constructor. }
    unfold resolve.
    destruct (cache_matches st) as [[|r1 [|r2 cache]]|] eqn:Ec; cbn [fst].
    + now destruct (best_rule st).
    + exact I.
    + destruct (weight_calculation st) eqn:Ef.
      * destruct (Qeq_bool _ 0); [exact I|].
        destruct (choices_weighted _ _ u) as [[|r l]|]; exact I.
      * destruct (choices_uniform _ u) as [l|] eqn:Eu; [|exact I]. cbn [fst].
        apply choices_uniform_In in Eu as (p & -> & Hp).
        split; [now exists p|]. split; [cbn; lia|].
        specialize (Hin Ef). rewrite Ec in Hin. cbn [candidates] in *.
        eapply Forall_impl; [|exact Hin].
        intros r Hr. now apply Qeq_bool_iff.
    + now destruct (best_rule st).
  - unfold select. destruct (search_space rb ns) as [space|]; [|exact I].
    destruct (scan_spaces ALL_MATCHES rb space (initial ALL_MATCHES) test)
      as [[st|] t] eqn:E; [|exact I].
    assert (Hin : flag_exact st).
    { eapply (scan_spaces_keeps flag_exact); [|idtac|eassumption].
      - intros rules. apply scan_rules_flag_exact.
      - reflexivity. }
    unfold resolve.
    destruct (cache_matches st) as [[|r1 [|r2 cache]]|] eqn:Ec; cbn [fst].
    + now destruct (best_rule st).
    + exact I.
    + destruct (weight_calculation st) eqn:Ef.
      * unfold flag_exact in Hin. rewrite Ec, Ef in Hin. cbn [candidates] in Hin.
        destruct (Qeq_bool _ 0); [exact I|].
        destruct (choices_weighted _ _ u) as [[|r l]|]; try exact I.
        cbn [fst]. now symmetry.
      * now destruct (choices_uniform _ u).
    + now destruct (best_rule st).
Qed.

End SelectShape.

Section SelectBest.

Context {lib : PyLib}.

Lemma Rule_match_reads_only rule test :
  reads_only rule = true ->
  Rule_match rule test = (score test rule, test).
Proof.
  intros H. unfold score, Rule_match, Element_match.
  pose proof (match_loop_read_only _ H test 0%Q) as Hs.
  destruct (match_loop test (__conditions__ rule) 0) as [r t]. cbn in *.
  now subst.
Qed.

Lemma truthy_false_zero s : truthy s = false -> (s == 0)%Q.
Proof.
  unfold truthy. intros H. apply negb_false_iff in H.
  now apply Qeq_bool_iff.
Qed.

Lemma Qlt_bool_true a b : Qlt_bool a b = true -> (a < b)%Q.
Proof.
  unfold Qlt_bool. intros H. apply negb_true_iff in H.
  apply Qnot_le_lt. intros Hle. apply Qle_bool_iff in Hle. congruence.
Qed.

Lemma Qlt_bool_false a b : Qlt_bool a b = false -> (b <= a)%Q.
Proof.
  unfold Qlt_bool. intros H. apply negb_false_iff in H.
  now apply Qle_bool_iff.
Qed.

Lemma best_inv_step test st seen rule sl st1 :
  best_inv test st seen ->
  score test rule = Ok sl ->
  (truthy sl = false /\ st1 = st
   \/ truthy sl = true /\ Qlt_bool (best_score st) sl = true
      /\ cache_append
           {| best_score := sl; best_rule := Some rule;
              weight_calculation := weight_calculation st;
              cache_matches := option_map (fun _ => []) (cache_matches st) |}
           rule = Ok st1
   \/ truthy sl = true /\ Qlt_bool (best_score st) sl = false
      /\ Qeq_bool sl (best_score st) = true
      /\ cache_append st rule = Ok st1
   \/ truthy sl = true /\ Qlt_bool (best_score st) sl = false
      /\ Qeq_bool sl (best_score st) = false /\ st1 = st) ->
  best_inv test st1 (seen ++ [rule]).
Proof.
  intros (cache & Hc & H0 & Hbelow & Hiff) Hsl
         [[Ht ->]|[(Ht & Hlt & Happ)|[(Ht & Hlt & Heq & Happ)|(Ht & Hlt & Heq & ->)]]].
  - exists cache. split; [assumption|]. split; [assumption|]. split.
    { apply Forall_app. split; [assumption|]. constructor; [|constructor].
      exists sl. split; [assumption|].
      apply truthy_false_zero in Ht. rewrite Ht. assumption. }
    intros r. split.
    { intros Hin. apply Hiff in Hin as [Hin Htied].
      split; [apply in_or_app; now left|assumption]. }
    intros [Hin Htied]. apply Hiff. split; [|assumption].
    apply in_app_or in Hin as [Hin|[<-|[]]]; [assumption|].
    destruct Htied as (sr & Hsr & _ & Htr). congruence.
  - unfold cache_append in Happ. rewrite Hc in Happ. cbn in Happ.
    inversion Happ; subst; clear Happ. apply Qlt_bool_true in Hlt.
    exists [rule]. cbn [best_score cache_matches].
    split; [reflexivity|]. split.
    { apply Qlt_le_weak. eapply Qle_lt_trans; eassumption. }
    split.
    { apply Forall_app. split.
      - eapply Forall_impl; [|exact Hbelow].
        intros r (sr & Hsr & Hle). exists sr. split; [assumption|].
        apply Qlt_le_weak. eapply Qle_lt_trans; eassumption.
      - constructor; [|constructor]. exists sl. split; [assumption|].
        apply Qle_refl. }
    intros r. split.
    { intros [<-|[]]. split; [apply in_or_app; right; now left|].
      exists sl. split; [assumption|]. split; [reflexivity|assumption]. }
    intros [Hin (sr & Hsr & Heq & Htr)].
    apply in_app_or in Hin as [Hin|[<-|[]]]; [|now left].
    rewrite Forall_forall in Hbelow.
    destruct (Hbelow r Hin) as (sr' & Hsr' & Hle).
    assert (sr' = sr) by congruence. subst sr'.
    rewrite Heq in Hle. exfalso. eapply Qlt_not_le; eassumption.
  - unfold cache_append in Happ. rewrite Hc in Happ.
    inversion Happ; subst; clear Happ. apply Qeq_bool_iff in Heq.
    exists (cache ++ [rule]). cbn [best_score cache_matches].
    split; [reflexivity|]. split; [assumption|]. split.
    { apply Forall_app. split; [assumption|]. constructor; [|constructor].
      exists sl. split; [assumption|]. rewrite Heq. apply Qle_refl. }
    intros r. split.
    { intros Hin. apply in_app_or in Hin as [Hin|[<-|[]]].
      - apply Hiff in Hin as [Hin Htied].
        split; [apply in_or_app; now left|assumption].
      - split; [apply in_or_app; right; now left|].
        exists sl. split; [assumption|]. split; assumption. }
    intros [Hin Htied]. apply in_or_app.
    apply in_app_or in Hin as [Hin|Hin]; [|now right].
    left. apply Hiff. now split.
  - exists cache. apply Qlt_bool_false in Hlt.
    split; [assumption|]. split; [assumption|]. split.
    { apply Forall_app. split; [assumption|]. constructor; [|constructor].
      now exists sl. }
    intros r. split.
    { intros Hin. apply Hiff in Hin as [Hin Htied].
      split; [apply in_or_app; now left|assumption]. }
    intros [Hin Htied]. apply Hiff. split; [|assumption].
    apply in_app_or in Hin as [Hin|[<-|[]]]; [assumption|].
    destruct Htied as (sr & Hsr & Hq & _).
    assert (sr = sl) by congruence. subst sr.
    apply Qeq_bool_iff in Hq. congruence.
Qed.

Lemma scan_rules_best_inv test rules :
  forallb reads_only rules = true ->
  forall st seen st' t,
    best_inv test st seen ->
    scan_rules BEST_MATCHES rules st test = (Ok st', t) ->
    t = test /\ best_inv test st' (seen ++ rules).
Proof.
  induction rules as [|rule rules IH]; intros Hro st seen st' t Hin;
    cbn [scan_rules].
  - intros H; inversion H; subst. now rewrite app_nil_r.
  - cbn [forallb] in Hro. apply andb_true_iff in Hro as [Hr Hro].
    rewrite (Rule_match_reads_only rule test Hr).
    destruct (score test rule) as [sl|] eqn:Hsl; [|discriminate].
    replace (seen ++ rule :: rules) with ((seen ++ [rule]) ++ rules)
      by now rewrite <- app_assoc.
    destruct (truthy sl) eqn:Ht.
    + destruct (Qlt_bool (best_score st) sl) eqn:Hlt.
      * destruct (cache_append _ rule) as [st1|] eqn:Ea; [|discriminate].
        apply IH; [assumption|].
        eapply best_inv_step; [eassumption..|]. right. left. now repeat split.
      * destruct (Qeq_bool sl (best_score st)) eqn:Heq.
        -- destruct (cache_append st rule) as [st1|] eqn:Ea; [|discriminate].
           apply IH; [assumption|].
           eapply best_inv_step; [eassumption..|].
           right. right. left. now repeat split.
        -- apply IH; [assumption|].
           eapply best_inv_step; [eassumption..|].
           right. right. right. now repeat split.
    + apply IH; [assumption|].
      eapply best_inv_step; [eassumption..|]. left. now split.
Qed.

Lemma scan_spaces_best_inv test rb space :
  forallb reads_only (flat_map (bucket_of rb) space) = true ->
  forall st seen st' t,
    best_inv test st seen ->
    scan_spaces BEST_MATCHES rb space st test = (Ok st', t) ->
    t = test /\ best_inv test st' (seen ++ flat_map (bucket_of rb) space).
Proof.
  induction space as [|ns space IH]; intros Hro st seen st' t Hin;
    cbn [scan_spaces flat_map].
  - intros H; inversion H; subst. now rewrite app_nil_r.
  - cbn [flat_map] in Hro. rewrite forallb_app in Hro.
    apply andb_true_iff in Hro as [Hns Hro].
    unfold bucket_of in Hns |- * at 1.
    destruct (find_bucket rb ns) as [[rules|]|]; [| |discriminate].
    + destruct (scan_rules BEST_MATCHES rules st test) as [[st1|] t1] eqn:E;
        [|discriminate].
      destruct (scan_rules_best_inv test rules Hns st seen st1 t1 Hin E)
        as [-> H1].
      rewrite app_assoc.
      destruct (best_rule st1); now apply IH.
    + cbn [app]. now apply IH.
Qed.

(** X23.  When no condition of the searched rules asks for a capture,
    [select] under [BEST_MATCHES] leaves the tested element as it was, its
    best score is an upper bound of the scores of all searched rules, and
    its candidates are exactly the searched rules that match with the best
    score. *)
Theorem best_matches_maximal rb test ns u best s cache t :
  forallb reads_only (searched rb ns) = true ->
  select rb test ns BEST_MATCHES u = (Ok (best, s, cache), t) ->
  t = test
  /\ Forall (below test s) (searched rb ns)
  /\ forall r,
      In r (candidates cache) <-> In r (searched rb ns) /\ tied test s r.
Proof.
  unfold select, searched.
  destruct (search_space rb ns) as [space|]; [|discriminate].
  intros Hro.
  destruct (scan_spaces BEST_MATCHES rb space (initial BEST_MATCHES) test)
    as [[st|] t1] eqn:E; [|discriminate].
  assert (Hinit : best_inv test (initial BEST_MATCHES) []).
  { exists []. split; [reflexivity|]. split; [apply Qle_refl|].
    split; [constructor|]. intros r. split; [intros []|intros [[] _]]. }
  destruct (scan_spaces_best_inv test rb space Hro _ [] st t1 Hinit E)
    as [-> (c & Hc & _ & Hbelow & Hiff)].
  destruct (resolve st u); [|discriminate].
  intros H; inversion H; subst; clear H.
  rewrite Hc. cbn [candidates app] in *.
  split; [reflexivity|]. split; [exact Hbelow|exact Hiff].
Qed.

End SelectBest.

(** X23, an instance: the namespace "level-1" of the rule base of the unit
    test on its session. *)
Lemma best_matches_maximal_witness :
  forallb reads_only (searched Data.rb_unit_test (NsStr "level-1")) = true
  /\ forall lib : PyLib,
      Forall (@below lib Data.session (1411 # 14))
             (searched Data.rb_unit_test (NsStr "level-1"))
      /\ (In (Data.rule_com "level-1") [Data.rule_openai "level-1"]
          <-> In (Data.rule_com "level-1")
                 (searched Data.rb_unit_test (NsStr "level-1"))
              /\ @tied lib Data.session (1411 # 14)
                       (Data.rule_com "level-1")).
Proof.
  split; [reflexivity|]. intros lib.
  destruct (@best_matches_maximal lib Data.rb_unit_test Data.session
              (NsStr "level-1") 0
              (SelRule (Data.rule_openai "level-1")) (1411 # 14)
              (Some [Data.rule_openai "level-1"]) Data.session
              eq_refl eq_refl) as (_ & Hbelow & Hiff).
  split; [exact Hbelow|]. exact (Hiff (Data.rule_com "level-1")).
Defined.

Section SelectFirst.

Context {lib : PyLib}.

Lemma scan_rules_first test rules :
  forallb reads_only rules = true ->
  forall st st' t,
    scan_rules FIRST_MATCH rules st test = (Ok st', t) ->
    t = test
    /\ ((st' = st /\ Forall (no_match test) rules)
        \/ exists before r after,
            rules = before ++ r :: after
            /\ Forall (no_match test) before
            /\ score test r = Ok (best_score st')
            /\ truthy (best_score st') = true
            /\ best_rule st' = Some r
            /\ cache_matches st' = cache_matches st).
Proof.
  induction rules as [|rule rules IH]; intros Hro st st' t;
    cbn [scan_rules].
  - intros H; inversion H; subst. split; [reflexivity|]. left. now split.
  - cbn [forallb] in Hro. apply andb_true_iff in Hro as [Hr Hro].
    rewrite (Rule_match_reads_only rule test Hr).
    destruct (score test rule) as [sl|] eqn:Hsl; [|discriminate].
    destruct (truthy sl) eqn:Ht.
    + intros H; inversion H; subst. split; [reflexivity|]. right.
      exists [], rule, rules. cbn. repeat split; try assumption. constructor.
    + intros H. destruct (IH Hro st st' t H) as [-> [[-> Hall]|Hfound]];
        (split; [reflexivity|]).
      * left. split; [reflexivity|]. constructor; [|assumption].
        now exists sl.
      * right. destruct Hfound as (before & r & after & -> & Hb & Hrest).
        exists (rule :: before), r, after. split; [reflexivity|].
        split; [|assumption]. constructor; [|assumption]. now exists sl.
Qed.

Lemma scan_spaces_first test rb space :
  forallb reads_only (flat_map (bucket_of rb) space) = true ->
  forall st st' t,
    best_rule st = None ->
    scan_spaces FIRST_MATCH rb space st test = (Ok st', t) ->
    t = test
    /\ ((st' = st /\ Forall (no_match test) (flat_map (bucket_of rb) space))
        \/ exists before r after,
            flat_map (bucket_of rb) space = before ++ r :: after
            /\ Forall (no_match test) before
            /\ score test r = Ok (best_score st')
            /\ truthy (best_score st') = true
            /\ best_rule st' = Some r
            /\ cache_matches st' = cache_matches st).
Proof.
  induction space as [|ns space IH]; intros Hro st st' t Hnone;
    cbn [scan_spaces flat_map].
  - intros H; inversion H; subst. split; [reflexivity|]. left.
    split; [reflexivity|constructor].
  - cbn [flat_map] in Hro. rewrite forallb_app in Hro.
    apply andb_true_iff in Hro as [Hns Hro].
    pose proof (eq_refl (bucket_of rb ns)) as Hbo.
    unfold bucket_of in Hbo at 2.
    destruct (find_bucket rb ns) as [[rules|]|]; [| |discriminate];
      rewrite Hbo in *.
    + destruct (scan_rules FIRST_MATCH rules st test) as [[st1|] t1] eqn:E;
        [|discriminate].
      destruct (scan_rules_first test rules Hns st st1 t1 E)
        as [-> [[-> Hall]|Hfound]].
      * rewrite Hnone. intros H.
        destruct (IH Hro st st' t Hnone H) as [-> [[-> Hall']|Hfound]];
          (split; [reflexivity|]).
        -- left. split; [reflexivity|]. apply Forall_app. now split.
        -- right. destruct Hfound as (before & r & after & Heq & Hb & Hrest).
           exists (rules ++ before), r, after. rewrite Heq, <- app_assoc.
           split; [reflexivity|]. split; [|assumption].
           apply Forall_app. now split.
      * destruct Hfound as (before & r & after & -> & Hb & Hs & Ht & Hbest & Hc).
        rewrite Hbest. intros H; inversion H; subst.
        split; [reflexivity|]. right.
        exists before, r, (after ++ flat_map (bucket_of rb) space).
        rewrite <- app_assoc. cbn [app]. now repeat split.
    + cbn [app]. now apply IH.
Qed.

(** X24.  When no condition of the searched rules asks for a capture,
    [select] under [FIRST_MATCH] leaves the tested element as it was and
    returns the first searched rule, in scan order, that matches, with that
    rule's score as the best score; it returns nothing exactly when no
    searched rule matches. *)
Theorem first_match_first rb test ns u best s cache t :
  forallb reads_only (searched rb ns) = true ->
  select rb test ns FIRST_MATCH u = (Ok (best, s, cache), t) ->
  t = test
  /\ ((best = SelNone /\ Forall (no_match test) (searched rb ns))
      \/ exists before r after,
          searched rb ns = before ++ r :: after
          /\ best = SelRule r
          /\ Forall (no_match test) before
          /\ score test r = Ok s
          /\ truthy s = true).
Proof.
  unfold select, searched.
  destruct (search_space rb ns) as [space|]; [|discriminate].
  intros Hro.
  destruct (scan_spaces FIRST_MATCH rb space (initial FIRST_MATCH) test)
    as [[st|] t1] eqn:E; [|discriminate].
  destruct (scan_spaces_first test rb space Hro (initial FIRST_MATCH) st t1
              eq_refl E)
    as [-> [[-> Hall]|Hfound]].
  - cbn. intros H; inversion H; subst. split; [reflexivity|]. left.
    now split.
  - destruct Hfound as (before & r & after & Heq & Hb & Hs & Ht & Hbest & Hc).
    unfold resolve. rewrite Hc, Hbest. cbn.
    intros H; inversion H; subst. split; [reflexivity|]. right.
    exists before, r, after. now repeat split.
Qed.

End SelectFirst.

(** X24, an instance: the namespace "level-2" of the rule base of the unit
    test on its session; the only rule of that namespace matches. *)
Lemma first_match_first_witness :
  forallb reads_only (searched Data.rb_unit_test (NsStr "level-2")) = true
  /\ forall lib : PyLib,
      (SelRule Data.rule_level2 = SelNone
       /\ Forall (@no_match lib Data.session)
                 (searched Data.rb_unit_test (NsStr "level-2")))
      \/ exists before r after,
          searched Data.rb_unit_test (NsStr "level-2") = before ++ r :: after
          /\ SelRule Data.rule_level2 = SelRule r
          /\ Forall (@no_match lib Data.session) before
          /\ @score lib Data.session r = Ok (1411 # 14)
          /\ truthy (1411 # 14) = true.
Proof.
  split; [reflexivity|]. intros lib.
  apply (@first_match_first lib Data.rb_unit_test Data.session
           (NsStr "level-2") 0 (SelRule Data.rule_level2) (1411 # 14) None
           Data.session eq_refl eq_refl).
Defined.

(** ** Tie resolution as intervals of the random draw *)




















(** ** What an extract-match extracts *)

Lemma append_assoc (a b c : string) :
  ((a ++ b) ++ c)%string = (a ++ (b ++ c))%string.
Proof. induction a as [|x a IH]; cbn; [reflexivity|now rewrite IH]. Qed.

Lemma append_nil_r (a : string) : (a ++ "")%string = a.
Proof. induction a as [|x a IH]; cbn; [reflexivity|now rewrite IH]. Qed.

Lemma greedy_split {R : Type} ok (k : string -> string -> option R) s :
  forall taken r,
    greedy ok k taken s = Some r ->
    exists a b, s = (a ++ b)%string /\ k (taken ++ a)%string b = Some r.
Proof.
  induction s as [|c s IH]; intros taken r; cbn [greedy].
  - intros H. exists EmptyString, EmptyString. split; [reflexivity|].
    now rewrite append_nil_r.
  - assert (Hstop : k taken (String c s) = Some r ->
                    exists a b, String c s = (a ++ b)%string
                                /\ k (taken ++ a)%string b = Some r).
    { intros H. exists EmptyString, (String c s). split; [reflexivity|].
      now rewrite append_nil_r. }
    destruct (ok c); [|exact Hstop].
    destruct (greedy ok k (taken ++ String c "") s) as [r'|] eqn:E;
      [|exact Hstop].
    intros H; inversion H; subst.
    apply IH in E as (a & b & -> & Hk).
    exists (String c a), b. split; [reflexivity|].
    now rewrite append_assoc in Hk.
Qed.

Lemma match_here_sound p :
  forall s caps,
    match_here p s = Some caps ->
    exists inst rest,
      instantiate p caps = Some inst /\ s = (inst ++ rest)%string.
Proof.
  induction p as [|[c| |] p IH]; intros s caps; cbn [match_here].
  - intros H; inversion H; subst. now exists EmptyString, s.
  - destruct s as [|d s]; [discriminate|].
    destruct (Ascii.eqb c d) eqn:E; [|discriminate].
    apply Ascii.eqb_eq in E; subst d. intros H.
    apply IH in H as (inst & rest & Hi & ->).
    exists (String c inst), rest. cbn [instantiate]. now rewrite Hi.
  - intros H. apply greedy_split in H as (a & b & -> & Hk).
    cbn [append] in Hk.
    destruct (match_here p b) as [caps'|] eqn:E; [|discriminate].
    inversion Hk; subst.
    apply IH in E as (inst & rest & Hi & ->).
    exists (a ++ inst)%string, rest. cbn [instantiate]. rewrite Hi.
    split; [reflexivity|]. now rewrite append_assoc.
  - intros H. apply greedy_split in H as (a & b & -> & Hk).
    cbn [append] in Hk. destruct a as [|x a]; [discriminate|].
    destruct (match_here p b) as [caps'|] eqn:E; [|discriminate].
    inversion Hk; subst.
    apply IH in E as (inst & rest & Hi & ->).
    exists (String x a ++ inst)%string, rest. cbn [instantiate]. rewrite Hi.
    split; [reflexivity|]. now rewrite append_assoc.
Qed.

Lemma search_sound p s :
  forall caps,
    search p s = Some caps ->
    exists before inst rest,
      instantiate p caps = Some inst
      /\ s = (before ++ inst ++ rest)%string.
Proof.
  induction s as [|c s IH]; intros caps; cbn [search].
  - destruct (match_here p "") as [caps'|] eqn:E; [|discriminate].
    intros H; inversion H; subst.
    apply match_here_sound in E as (inst & rest & Hi & Hs).
    now exists EmptyString, inst, rest.
  - destruct (match_here p (String c s)) as [caps'|] eqn:E.
    + intros H; inversion H; subst.
      apply match_here_sound in E as (inst & rest & Hi & Hs).
      now exists EmptyString, inst, rest.
    + intros H. apply IH in H as (before & inst & rest & Hi & ->).
      now exists (String c before), inst, rest.
Qed.

Section ExtractSound.

Context {lib : PyLib}.

Lemma returned_value result q s target :
  returned result = Ok (q, VStr s, target) ->
  result = Ok (q, VStr s, target) /\ truthy q = true.
Proof.
  destruct result as [[[q0 v0] t0]|]; cbn [returned]; [|discriminate].
  destruct (truthy q0) eqn:Ht; intros H; inversion H; subst.
  now split.
Qed.

(** X27.  When [_matcher] extracts a text through a test without a name
    suffix, the value holds, somewhere, the text of the test with each
    marker replaced by a captured text, the first of them being the
    extracted text. *)
Theorem extract_match_sound value test q extracted name :
  Str.contains "/@" test = false ->
  _matcher (VStr value) (VStr test) = Ok (q, VStr extracted, Some name) ->
  exists caps inst before rest,
    instantiate (extract_pattern test) (extracted :: caps) = Some inst
    /\ value = (before ++ inst ++ rest)%string.
Proof.
  intros Hno H.
  change (_matcher (VStr value) (VStr test))
    with (returned (string_match value test)) in H.
  apply returned_value in H as [H Ht].
  unfold string_match in H.
  destruct (String.eqb value test); [discriminate|].
  destruct (String.eqb test "*"); [discriminate|].
  destruct (Str.startswith "re/" test);
    [destruct (regex_match value test); discriminate|].
  destruct (Str.contains "*" test); [|discriminate].
  destruct (Str.contains "$*" test);
    [|destruct (star_match value test); discriminate].
  unfold extract_match in H. rewrite Hno in H.
  fold (extract_pattern test) in H.
  destruct (search (extract_pattern test) value) as [[|g caps]|] eqn:E;
    try discriminate.
  - inversion H; subst.
    apply search_sound in E as (before & inst & rest & Hi & ->).
    now exists caps, inst, before, rest.
  - inversion H; subst. discriminate.
Qed.

End ExtractSound.

(** X27, an instance: the test "key=$*$" of the unit test extracts "1.0"
    from a value that holds "key=1.0". *)
Lemma extract_match_sound_witness :
  Str.contains "/@" "key=$*$" = false
  /\ forall lib : PyLib,
      exists caps inst before rest,
        instantiate (extract_pattern "key=$*$") ("1.0" :: caps) = Some inst
        /\ "string key=1.0 string" = (before ++ inst ++ rest)%string.
Proof.
  split; [reflexivity|]. intros lib.
  apply (@extract_match_sound lib "string key=1.0 string" "key=$*$"
           (3 # 4) "1.0" "match"); reflexivity.
Defined.

(** X28, an instance: the rule base of the unit test has no namespace
    "level-3". *)
Lemma select_missing_namespace_witness :
  bucket Data.rb_unit_test "level-3" = None
  /\ forall lib : PyLib,
      @select lib Data.rb_unit_test Data.session (NsStr "level-3")
              ALL_MATCHES 0
      = (Ok (SelNone, 0%Q, Some []), Data.session).
Proof.
  split; [reflexivity|]. intros lib.
  apply (@select_missing_namespace lib Data.rb_unit_test Data.session
           "l"%char "evel-3" ALL_MATCHES 0). reflexivity.
Defined.
